(** * starport/services/chain/build.go: the build and release pipeline

    A shallow embedding of [Build], [build], [BuildRelease], [preBuild] and
    [discoverMain].  The pipeline is a sequence of calls to collaborators
    that live outside the file (the configuration loader, the compiler
    invoker, the operating system, the archiver, the checksum writer).  The
    embedding keeps every such call: a computation reads the history of the
    calls made so far, asks the world for the reply of the next call, and
    records the call together with its reply.  What the collaborators reply
    is left entirely open, so a theorem about [BuildRelease] holds for every
    behaviour of the compiler, of the file system and so on. *)

From Stdlib Require Import String Ascii List Bool Arith ZArith Lia.
Import ListNotations.
Open Scope string_scope.
Open Scope list_scope.

Set Implicit Arguments.

(* ================================================================= *)
(** ** Go strings *)

Module strings.

(** [strings.Split(s, sep)] for a one-byte separator: the pieces between
    the separators, n+1 pieces for n separators. *)
Fixpoint Split (s : string) (sep : ascii) : list string :=
  match s with
  | EmptyString => [EmptyString]
  | String ch rest =>
      if Ascii.eqb ch sep then EmptyString :: Split rest sep
      else match Split rest sep with
           | [] => [String ch EmptyString]
           | piece :: pieces => String ch piece :: pieces
           end
  end.

(** [strings.Join(elems, sep)]. *)
Definition Join (elems : list string) (sep : string) : string :=
  String.concat sep elems.

Definition HasPrefix (s pre : string) : bool := String.prefix pre s.

End strings.

(* ================================================================= *)
(** ** path/filepath (Unix) *)

Module filepath.

(** One path element pushed on the cleaned elements so far (most recent
    first), as [Clean] treats it: empty and [.] elements vanish, [..]
    takes back the element before it, or stays when there is none to take
    back and the path is not rooted. *)
Definition cleanStep (rooted : bool) (out : list string) (elem : string)
  : list string :=
  if (elem =? "")%string || (elem =? ".")%string then out
  else if (elem =? "..")%string then
    match out with
    | top :: below =>
        if (top =? "..")%string then elem :: out else below
    | [] => if rooted then [] else [elem]
    end
  else elem :: out.

(** [filepath.Clean]. *)
Definition Clean (path : string) : string :=
  let rooted := strings.HasPrefix path "/" in
  let out := fold_left (cleanStep rooted) (strings.Split path "/"%char) [] in
  let body := strings.Join (rev out) "/" in
  let cleaned := if rooted then ("/" ++ body)%string else body in
  if (cleaned =? "")%string then "." else cleaned.

(** [filepath.Join(a, b)]: empty elements are skipped, the first one that
    is not empty starts the path, and the result is cleaned; all elements
    empty gives the empty string. *)
Definition Join (a b : string) : string :=
  if negb (a =? "")%string then Clean (a ++ "/" ++ b)%string
  else if negb (b =? "")%string then Clean b
  else "".

End filepath.

(* ================================================================= *)
(** ** Errors *)

(** The error values the pipeline handles.  For [errors.As] and [errors.Is]
    an error is a chain: [Wrap] is [errors.Wrap(cause, msg)] of
    github.com/pkg/errors.  [CannotBuildAppError] is the struct
    [&CannotBuildAppError{err}] of this package; its declaration is in
    another file, and by the specification it carries the original cause,
    so [errors.As] and [errors.Is] are taken to look through it. *)
Inductive error : Type :=
| ExitError (code : Z)                 (* *exec.ExitError *)
| ErrMultipleMainPackagesFound         (* goanalysis.ErrMultipleMainPackagesFound *)
| TargetParseError                     (* the error of gocmd.ParseTarget *)
| ErrorString (msg : string)           (* any other error value *)
| Wrap (cause : error) (msg : string)
| CannotBuildAppError (Err : error).

Module errors.

(** [errors.As(err, &exitErr)] with [exitErr] of type [*exec.ExitError]:
    some error of the chain is an exit error. *)
Fixpoint AsExitError (err : error) : bool :=
  match err with
  | ExitError _ => true
  | Wrap cause _ => AsExitError cause
  | CannotBuildAppError cause => AsExitError cause
  | _ => false
  end.

(** [errors.Is(err, goanalysis.ErrMultipleMainPackagesFound)]. *)
Fixpoint IsMultipleMain (err : error) : bool :=
  match err with
  | ErrMultipleMainPackagesFound => true
  | Wrap cause _ => IsMultipleMain cause
  | CannotBuildAppError cause => IsMultipleMain cause
  | _ => false
  end.

(** [err == goanalysis.ErrMultipleMainPackagesFound], the comparison of
    [discoverMain]: the sentinel itself, not a chain that holds it. *)
Definition eqMultipleMain (err : option error) : bool :=
  match err with
  | Some ErrMultipleMainPackagesFound => true
  | _ => false
  end.

End errors.

(** The error is of kind [CannotBuildAppError]. *)
Definition isCannotBuildApp (err : error) : bool :=
  match err with CannotBuildAppError _ => true | _ => false end.

(* ================================================================= *)
(** ** gocmd: targets *)

Module gocmd.

(** Modelled from the spec: gocmd.BuildTarget is not in build.go; a target
    token has the form "<os>:<arch>". *)
Definition BuildTarget (goos goarch : string) : string :=
  (goos ++ ":" ++ goarch)%string.

(** Modelled from the spec: gocmd.ParseTarget is not in build.go; it
    splits the token on the separator and fails with a TargetParseError
    if the token does not have exactly the two expected parts. *)
Definition ParseTarget (t : string) : string * string * option error :=
  match strings.Split t ":"%char with
  | [goos; goarch] => (goos, goarch, None)
  | _ => ("", "", Some TargetParseError)
  end.

(** Modelled from the spec: gocmd.Ldflags is not in build.go; the linker
    flags go into one token, [linker-flags="<config flags> <injected
    flags>"], the flags in their order with a space between them. *)
Definition Ldflags (flags : list string) : string :=
  strings.Join flags " ".

End gocmd.

(* ================================================================= *)
(** ** The data of a chain *)

Module chainconf.
(** [chainconf.Build]: the two fields build.go reads. *)
Record BuildConfig : Type := mkBuild { Main : string; LDFlags : list string }.
Record Config : Type := mkConfig { Build : BuildConfig }.
Definition empty : Config := mkConfig (mkBuild "" []).
End chainconf.

Record App : Type := mkApp { Name : string; Path : string; ImportPath : string }.
Record version : Type := mkVersion { tag : string; hash : string }.
Record Chain : Type := mkChain { app : App; sourceVersion : version }.

(** What build.go takes from other packages without effect, as parameters:
    the flag and environment names of gocmd, [strings.Title], the method
    [App.D], and the host's [runtime.GOOS] and [runtime.GOARCH]. *)
Record Lib : Type := mkLib {
  FlagMod : string;
  FlagModValueReadOnly : string;
  FlagLdflags : string;
  EnvGOOS : string;
  EnvGOARCH : string;
  Title : string -> string;
  D : App -> string;
  GOOS : string;
  GOARCH : string
}.

Definition releaseDir : string := "release".
Definition checksumTxt : string := "checksum.txt".

(* ================================================================= *)
(** ** Calls to the collaborators *)

(** A call with its arguments.  The receiver methods [c.setup],
    [c.generateAll], [c.Config], [c.ID], [c.Binary] are calls too: their
    bodies are in other files.  The [context.Context] that build.go hands
    on to its callees is not an argument here: a cancellation shows as the
    error a callee returns. *)
Inductive call : Type :=
| c_setup
| c_generateAll
| c_Config
| c_ID
| c_Binary
| Fprintln (msg : string)
| gocmd_ModTidy (path : string)
| gocmd_ModVerify (path : string)
| gocmd_BuildPath (output binary path : string) (flags : list string)
                  (env : list (string * string))
| goanalysis_DiscoverOneMain (path : string)
| os_RemoveAll (path : string)
| os_MkdirAll (path : string) (perm : N)
| os_MkdirTemp (dir pattern : string)
| archive_Tar (path : string)
| os_Create (name : string)
| io_Copy (dst src : string)
| File_Close (name : string)
| checksum_Sum (dir path : string).

(** A call that was made, with the string and the error it returned (the
    string is empty for a callee that returns an error only). *)
Record event : Type := mkEvent {
  ev_call : call;
  ev_ret : string;
  ev_err : option error
}.

Definition History : Type := list event.

(** The collaborators: what a call returns, given everything that was
    called before.  [c.Config] returns a struct and has a reply of its
    own. *)
Record World : Type := mkWorld {
  reply : History -> call -> string * option error;
  replyConfig : History -> chainconf.Config * option error
}.

(** A computation reads the history and returns its value together with the
    events it adds to the history. *)
Definition M (A : Type) : Type := History -> A * list event.

Definition ret {A} (a : A) : M A := fun _ => (a, []).

Definition bind {A B} (m : M A) (k : A -> M B) : M B :=
  fun h =>
    let (a, e1) := m h in
    let (b, e2) := k a (h ++ e1) in
    (b, e1 ++ e2).

Declare Scope go_scope.
Delimit Scope go_scope with go.
Notation "x <- m ;; k" := (bind m (fun x => k))
  (at level 100, m at next level, right associativity) : go_scope.
Notation "' p <- m ;; k" := (bind m (fun x => let 'p := x in k))
  (at level 100, p pattern, m at next level, right associativity) : go_scope.
Notation "'unless' err 'returns' f ;; k" :=
  (match err with Some e => ret (f e) | None => k end)
  (at level 100, err at next level, f at next level, right associativity) : go_scope.
Open Scope go_scope.

(* ================================================================= *)
(** ** The pipeline *)

Section Pipeline.

Variable L : Lib.
Variable W : World.

(** Make a call: ask the world, record the call and what it returned. *)
Definition invoke (c : call) : M (string * option error) :=
  fun h =>
    let r := reply W h c in
    (r, [mkEvent c (fst r) (snd r)]).

(** A callee that returns an error only. *)
Definition invokeErr (c : call) : M (option error) :=
  r <- invoke c ;; ret (snd r).

(** [c.Config()]. *)
Definition Config (c : Chain) : M (chainconf.Config * option error) :=
  fun h =>
    let r := replyConfig W h in
    (r, [mkEvent c_Config "" (snd r)]).

(** The deferred calls of a function run when it returns, the last one
    deferred first; what they return is dropped. *)
Fixpoint runDeferred (deferred : list call) : M unit :=
  match deferred with
  | [] => ret tt
  | d :: rest => _ <- invoke d ;; runDeferred rest
  end.

(** The five [-X] settings [preBuild] appends to the linker flags of the
    configuration. *)
Definition injectedLdFlags (c : Chain) (chainID : string) : list string :=
  [ ("-X github.com/cosmos/cosmos-sdk/version.Name=" ++ Title L (Name (app c)))%string;
    ("-X github.com/cosmos/cosmos-sdk/version.AppName=" ++ Name (app c) ++ "d")%string;
    ("-X github.com/cosmos/cosmos-sdk/version.Version=" ++ tag (sourceVersion c))%string;
    ("-X github.com/cosmos/cosmos-sdk/version.Commit=" ++ hash (sourceVersion c))%string;
    ("-X " ++ ImportPath (app c) ++ "/cmd/" ++ D L (app c) ++ "/cmd.ChainID=" ++ chainID)%string ].

(** [preBuild], build.go lines 165-201.  A nil slice is the empty list. *)
Definition preBuild (c : Chain) : M (list string * option error) :=
  '(config, err) <- Config c ;;
  unless err returns (fun e => ([], Some e)) ;;
  '(chainID, err) <- invoke c_ID ;;
  unless err returns (fun e => ([], Some e)) ;;
  let ldFlags := chainconf.LDFlags (chainconf.Build config) in
  let ldFlags := ldFlags ++ injectedLdFlags c chainID in
  let buildFlags :=
    [ FlagMod L; FlagModValueReadOnly L; FlagLdflags L; gocmd.Ldflags ldFlags ] in
  _ <- invoke (Fprintln "📦 Installing dependencies...") ;;
  err <- invokeErr (gocmd_ModTidy (Path (app c))) ;;
  unless err returns (fun e => ([], Some e)) ;;
  err <- invokeErr (gocmd_ModVerify (Path (app c))) ;;
  unless err returns (fun e => ([], Some e)) ;;
  _ <- invoke (Fprintln "🛠️  Building the blockchain...") ;;
  ret (buildFlags, None).

(** [discoverMain], build.go lines 203-218. *)
Definition discoverMain (c : Chain) (path : string) : M (string * option error) :=
  '(conf, err) <- Config c ;;
  unless err returns (fun e => ("", Some e)) ;;
  if negb (chainconf.Main (chainconf.Build conf) =? "")%string then
    ret (filepath.Join (Path (app c)) (chainconf.Main (chainconf.Build conf)), None)
  else
    '(path, err) <- invoke (goanalysis_DiscoverOneMain path) ;;
    if errors.eqMultipleMain err then
      ret ("", Some (Wrap ErrMultipleMainPackagesFound
        "specify the path to your chain's main package in your config.yml>build.main"))
    else ret (path, err).

(** The deferred function of [build], lines 41-47: an error whose chain
    holds an exit error or the multiple-main sentinel is put in a
    [CannotBuildAppError]. *)
Definition reclassify (err : option error) : option error :=
  match err with
  | Some e =>
      if errors.AsExitError e || errors.IsMultipleMain e
      then Some (CannotBuildAppError e)
      else Some e
  | None => None
  end.

(** The body of [build], lines 49-68, before its deferred function.  Every
    return sets the named result [err], which the deferred function then
    reads. *)
Definition buildBody (c : Chain) (output : string) : M (option error) :=
  err <- invokeErr c_generateAll ;;
  unless err returns (fun e => Some e) ;;
  '(buildFlags, err) <- preBuild c ;;
  unless err returns (fun e => Some e) ;;
  '(binary, err) <- invoke c_Binary ;;
  unless err returns (fun e => Some e) ;;
  '(path, err) <- discoverMain c (Path (app c)) ;;
  unless err returns (fun e => Some e) ;;
  invokeErr (gocmd_BuildPath output binary path buildFlags []).

(** [build], lines 40-69. *)
Definition build (c : Chain) (output : string) : M (option error) :=
  err <- buildBody c output ;;
  ret (reclassify err).

(** [Build], lines 28-38. *)
Definition Build (c : Chain) (output : string) : M (string * option error) :=
  err <- invokeErr c_setup ;;
  unless err returns (fun e => ("", Some e)) ;;
  err <- build c output ;;
  unless err returns (fun e => ("", Some e)) ;;
  invoke c_Binary.

(** [fmt.Sprintf("%s_%s_%s.tar.gz", prefix, goos, goarch)], line 144. *)
Definition tarName (prefix goos goarch : string) : string :=
  (prefix ++ "_" ++ goos ++ "_" ++ goarch ++ ".tar.gz")%string.

(** The environment of [buildOptions], lines 128-133. *)
Definition targetEnv (goos goarch : string) : list (string * string) :=
  [ (EnvGOOS L, goos); (EnvGOARCH L, goarch) ].

(** One turn of the loop of [BuildRelease] over the targets, lines
    116-156.  It returns the error that makes [BuildRelease] return, if
    any, and the deferred calls, to which it adds its own: a [defer] in a
    loop runs when the function returns, not when the turn ends. *)
Definition buildTarget (binary mainPath : string) (buildFlags : list string)
    (releasePath prefix : string) (t : string) (deferred : list call)
  : M (option error * list call) :=
  let '(goos, goarch, err) := gocmd.ParseTarget t in
  unless err returns (fun e => (Some e, deferred)) ;;
  '(out, err) <- invoke (os_MkdirTemp "" "") ;;
  unless err returns (fun e => (Some e, deferred)) ;;
  let deferred := os_RemoveAll out :: deferred in
  err <- invokeErr (gocmd_BuildPath out binary mainPath buildFlags
                      (targetEnv goos goarch)) ;;
  unless err returns (fun e => (Some e, deferred)) ;;
  '(tarr, err) <- invoke (archive_Tar out) ;;
  unless err returns (fun e => (Some e, deferred)) ;;
  let tarPath := filepath.Join releasePath (tarName prefix goos goarch) in
  err <- invokeErr (os_Create tarPath) ;;
  unless err returns (fun e => (Some e, deferred)) ;;
  let deferred := File_Close tarPath :: deferred in
  err <- invokeErr (io_Copy tarPath tarr) ;;
  unless err returns (fun e => (Some e, deferred)) ;;
  _ <- invoke (File_Close tarPath) ;;
  ret (None, deferred).

(** The loop, lines 115-157: it goes on to the next target only when the
    turn returned no error. *)
Fixpoint buildTargets (binary mainPath : string) (buildFlags : list string)
    (releasePath prefix : string) (targets : list string) (deferred : list call)
  : M (option error * list call) :=
  match targets with
  | [] => ret (None, deferred)
  | t :: rest =>
      '(err, deferred) <-
        buildTarget binary mainPath buildFlags releasePath prefix t deferred ;;
      match err with
      | Some e => ret (Some e, deferred)
      | None =>
          buildTargets binary mainPath buildFlags releasePath prefix rest deferred
      end
  end.

(** [BuildRelease] up to the loop, lines 83-113: the steps that prepare
    the build and the release directory.  It returns what the loop needs;
    the mode 0755 is 493. *)
Definition prepareRelease (c : Chain) (output : string)
  : M (list string * string * string * string * option error) :=
  err <- invokeErr c_setup ;;
  unless err returns (fun e => ([], "", "", "", Some e)) ;;
  '(buildFlags, err) <- preBuild c ;;
  unless err returns (fun e => ([], "", "", "", Some e)) ;;
  '(binary, err) <- invoke c_Binary ;;
  unless err returns (fun e => ([], "", "", "", Some e)) ;;
  '(mainPath, err) <- discoverMain c (Path (app c)) ;;
  unless err returns (fun e => ([], "", "", "", Some e)) ;;
  let releasePath := output in
  '(releasePath, err) <-
    (if (releasePath =? "")%string then
       let releasePath := filepath.Join (Path (app c)) releaseDir in
       err <- invokeErr (os_RemoveAll releasePath) ;;
       ret (releasePath, err)
     else ret (releasePath, None)) ;;
  unless err returns (fun e => ([], "", "", "", Some e)) ;;
  err <- invokeErr (os_MkdirAll releasePath 493) ;;
  unless err returns (fun e => ([], "", "", "", Some e)) ;;
  ret (buildFlags, binary, mainPath, releasePath, None).

(** Lines 75-77. *)
Definition defaultPrefix (c : Chain) (prefix : string) : string :=
  if (prefix =? "")%string then Name (app c) else prefix.

(** Lines 78-80. *)
Definition defaultTargets (targets : list string) : list string :=
  if Nat.eqb (List.length targets) 0
  then [gocmd.BuildTarget (GOOS L) (GOARCH L)]
  else targets.

(** [BuildRelease], lines 74-163.  The checksum of the last line is
    computed before the deferred calls run. *)
Definition BuildRelease (c : Chain) (output prefix : string)
    (targets : list string) : M (string * option error) :=
  let prefix := defaultPrefix c prefix in
  let targets := defaultTargets targets in
  '(buildFlags, binary, mainPath, releasePath, err) <- prepareRelease c output ;;
  unless err returns (fun e => ("", Some e)) ;;
  '(err, deferred) <-
    buildTargets binary mainPath buildFlags releasePath prefix targets [] ;;
  match err with
  | Some e => _ <- runDeferred deferred ;; ret ("", Some e)
  | None =>
      let checksumPath := filepath.Join releasePath checksumTxt in
      err <- invokeErr (checksum_Sum releasePath checksumPath) ;;
      _ <- runDeferred deferred ;;
      ret (releasePath, err)
  end.

End Pipeline.

Arguments filepath.Join : simpl never.
Arguments filepath.Clean : simpl never.
Arguments gocmd.ParseTarget : simpl never.
Arguments gocmd.BuildTarget : simpl never.
Arguments errors.eqMultipleMain : simpl never.
Arguments preBuild : simpl never.
Arguments discoverMain : simpl never.
Arguments buildBody : simpl never.
Arguments prepareRelease : simpl never.

(* ================================================================= *)
(** ** What a run did: observations on the recorded calls *)

Definition calls (evs : list event) : list call := map ev_call evs.

(** The paths given to [os.RemoveAll]. *)
Definition removedOf (cs : list call) : list string :=
  flat_map (fun c => match c with os_RemoveAll p => [p] | _ => [] end) cs.

(** The directories and modes given to [os.MkdirAll]. *)
Definition mkdirAllOf (cs : list call) : list (string * N) :=
  flat_map (fun c => match c with os_MkdirAll p m => [(p, m)] | _ => [] end) cs.

(** The environments the compiler was invoked with. *)
Definition compiledOf (cs : list call) : list (list (string * string)) :=
  flat_map (fun c => match c with
                     | gocmd_BuildPath _ _ _ _ env => [env]
                     | _ => []
                     end) cs.

(** The files given to [os.Create]. *)
Definition createdOf (cs : list call) : list string :=
  flat_map (fun c => match c with os_Create p => [p] | _ => [] end) cs.

(** The calls that remove or make a directory of a given name, in the
    order they were made. *)
Definition dirOpsOf (cs : list call) : list call :=
  filter (fun c => match c with
                   | os_RemoveAll _ | os_MkdirAll _ _ => true
                   | _ => false
                   end) cs.

(** The calls of the checksum writer. *)
Definition checksumOf (cs : list call) : list (string * string) :=
  flat_map (fun c => match c with checksum_Sum d p => [(d, p)] | _ => [] end) cs.

(** The entry-point scans. *)
Definition scannedOf (cs : list call) : list string :=
  flat_map (fun c => match c with
                     | goanalysis_DiscoverOneMain p => [p]
                     | _ => []
                     end) cs.

(** The temporary directories [os.MkdirTemp] created. *)
Definition tempDirs (evs : list event) : list string :=
  flat_map (fun e => match ev_call e, ev_err e with
                     | os_MkdirTemp _ _, None => [ev_ret e]
                     | _, _ => []
                     end) evs.

(** The archives written: the destinations of the [io.Copy] calls that
    returned no error. *)
Definition written (evs : list event) : list string :=
  flat_map (fun e => match ev_call e, ev_err e with
                     | io_Copy dst _, None => [dst]
                     | _, _ => []
                     end) evs.

(** The calls that returned an error, each with its error. *)
Definition failedCalls (evs : list event) : list (call * error) :=
  flat_map (fun e => match ev_err e with
                     | Some err => [(ev_call e, err)]
                     | None => []
                     end) evs.

(** The temporary directories that exist after the events [evs], when
    [live] existed before: [os.MkdirTemp] adds the one it created, and a
    call of [os.RemoveAll] that returned no error takes its directory away.
    A call of [os.RemoveAll] that returned an error leaves the directory
    where it is. *)
Fixpoint liveTemps (evs : list event) (live : list string) : list string :=
  match evs with
  | [] => live
  | e :: rest =>
      match ev_call e, ev_err e with
      | os_MkdirTemp _ _, None => liveTemps rest (ev_ret e :: live)
      | os_RemoveAll p, None =>
          liveTemps rest (filter (fun d => negb (d =? p)%string) live)
      | _, _ => liveTemps rest live
      end
  end.

(** Events that touch no directory, do not compile, and write neither an
    archive nor a checksum. *)
Definition quiet (evs : list event) : Prop :=
  dirOpsOf (calls evs) = [] /\ compiledOf (calls evs) = [] /\
  createdOf (calls evs) = [] /\ checksumOf (calls evs) = [] /\
  tempDirs evs = [] /\ written evs = [].

(** A deferred call of [BuildRelease]: closing an archive file or removing a
    directory. *)
Definition isCleanup (c : call) : bool :=
  match c with
  | File_Close _ | os_RemoveAll _ => true
  | _ => false
  end.

(** The release directory [BuildRelease] works in. *)
Definition releasePathOf (c : Chain) (output : string) : string :=
  if (output =? "")%string then filepath.Join (Path (app c)) releaseDir else output.

(** The archive of a target token. *)
Definition archivePath (releasePath prefix t : string) : string :=
  let '(goos, goarch, _) := gocmd.ParseTarget t in
  filepath.Join releasePath (tarName prefix goos goarch).

(** The compiler environment of a target token. *)
Definition envOf (L : Lib) (t : string) : list (string * string) :=
  let '(goos, goarch, _) := gocmd.ParseTarget t in
  targetEnv L goos goarch.

(** The message [discoverMain] puts on the multiple-main error. *)
Definition specifyMain : string :=
  "specify the path to your chain's main package in your config.yml>build.main".

(** The last event of a run; an empty run has none, which shows as an event
    of [c.setup] without the error a failed call would have. *)
Definition lastEvent (evs : list event) : event :=
  last evs (mkEvent c_setup "" None).

(** The error [e] is one that a call of the run returned, or one of the two
    errors that build.go makes itself: the error of a token that does not
    parse, and the multiple-main sentinel under the message of
    [discoverMain]. *)
Definition cameFrom (evs : list event) (e : error) : Prop :=
  In e (map snd (failedCalls evs)) \/
  e = TargetParseError \/
  e = Wrap ErrMultipleMainPackagesFound specifyMain.

Definition parses (t : string) : bool :=
  match snd (gocmd.ParseTarget t) with None => true | Some _ => false end.

(* ================================================================= *)
(** ** A concrete chain and concrete worlds *)

Module Example.

(** [strings.Title] on ASCII text: the letter that starts a word is put in
    upper case.  A word starts at the start of the text and after every
    byte that is a separator; letters, digits and the underscore are not
    separators, every other ASCII byte is. *)
Definition isLower (ch : ascii) : bool :=
  Nat.leb 97 (nat_of_ascii ch) && Nat.leb (nat_of_ascii ch) 122.

Definition isSeparator (ch : ascii) : bool :=
  let n := nat_of_ascii ch in
  negb (Nat.leb 48 n && Nat.leb n 57 || Nat.leb 65 n && Nat.leb n 90
        || Nat.leb 97 n && Nat.leb n 122 || Nat.eqb n 95 || Nat.leb 128 n).

Fixpoint titleFrom (startsWord : bool) (s : string) : string :=
  match s with
  | EmptyString => EmptyString
  | String ch rest =>
      String (if startsWord && isLower ch
              then ascii_of_nat (nat_of_ascii ch - 32) else ch)
             (titleFrom (isSeparator ch) rest)
  end.

Definition lib : Lib :=
  mkLib "-mod" "readonly" "-ldflags" "GOOS" "GOARCH"
        (titleFrom true)
        (fun a => (Name a ++ "d")%string)
        "linux" "amd64".

Definition mars : Chain :=
  mkChain (mkApp "mars" "/src/mars" "github.com/x/mars") (mkVersion "v1" "abc").

(** Every collaborator succeeds; the n-th call that asks for a temporary
    directory gets one named after n. *)
Definition good (conf : chainconf.Config) : World :=
  mkWorld
    (fun h c =>
       match c with
       | c_ID => ("mars-1", None)
       | c_Binary => ("marsd", None)
       | goanalysis_DiscoverOneMain p => ((p ++ "/cmd/marsd")%string, None)
       | os_MkdirTemp _ _ =>
           (String.concat "" ("/tmp/b" :: map (fun _ => "i") h), None)
       | archive_Tar p => (("tar:" ++ p)%string, None)
       | _ => ("", None)
       end)
    (fun _ => (conf, None)).

(** The world [W], but the calls [fails] picks return the error [e]. *)
Definition failing (fails : call -> bool) (e : error) (W : World) : World :=
  mkWorld
    (fun h c => if fails c then ("", Some e) else reply W h c)
    (replyConfig W).

Definition isCompile (c : call) : bool :=
  match c with gocmd_BuildPath _ _ _ _ _ => true | _ => false end.
Definition isModTidy (c : call) : bool :=
  match c with gocmd_ModTidy _ => true | _ => false end.
Definition isScan (c : call) : bool :=
  match c with goanalysis_DiscoverOneMain _ => true | _ => false end.
Definition isSum (c : call) : bool :=
  match c with checksum_Sum _ _ => true | _ => false end.

(** A configuration with an explicit entry point and two linker flags. *)
Definition withMain : chainconf.Config :=
  chainconf.mkConfig (chainconf.mkBuild "cmd/marsd" ["-s"; "-w"]).

(** The compiler exits with a status that is not zero. *)
Definition compilerExits : World :=
  failing isCompile (ExitError 2) (good chainconf.empty).

(** [go mod tidy] exits with a status that is not zero. *)
Definition tidyExits : World :=
  failing isModTidy (ExitError 1) (good chainconf.empty).

(** The scan finds more than one main package. *)
Definition manyMains : World :=
  failing isScan ErrMultipleMainPackagesFound (good chainconf.empty).

(** The checksum writer fails. *)
Definition sumFails : World :=
  failing isSum (ErrorString "checksum: permission denied") (good chainconf.empty).

End Example.

(* ================================================================= *)
(** ** More observations on the recorded calls *)

(** The compiler invocations with all their arguments: output directory,
    binary name, entry point, flags, environment. *)
Definition buildPathsOf (cs : list call)
  : list (string * string * string * list string * list (string * string)) :=
  flat_map (fun c => match c with
                     | gocmd_BuildPath out binary path flags env =>
                         [(out, binary, path, flags, env)]
                     | _ => []
                     end) cs.

(** The dependency steps, [go mod tidy] and [go mod verify], in the order
    they were called. *)
Definition depsOf (cs : list call) : list call :=
  filter (fun c => match c with
                   | gocmd_ModTidy _ | gocmd_ModVerify _ => true
                   | _ => false
                   end) cs.

(** The calls of [c.generateAll]. *)
Definition generatedOf (cs : list call) : list call :=
  filter (fun c => match c with c_generateAll => true | _ => false end) cs.

(** The directories given to [archive.Tar]. *)
Definition tarredOf (cs : list call) : list string :=
  flat_map (fun c => match c with archive_Tar d => [d] | _ => [] end) cs.

(** The files [os.Create] opened. *)
Definition openedOf (evs : list event) : list string :=
  flat_map (fun e => match ev_call e, ev_err e with
                     | os_Create name, None => [name]
                     | _, _ => []
                     end) evs.

(** The files given to [File.Close]. *)
Definition closedOf (cs : list call) : list string :=
  flat_map (fun c => match c with File_Close name => [name] | _ => [] end) cs.

(** The calls whose error build.go never looks at outside a [defer]: the
    two progress lines and the closing of an archive file. *)
Definition errorDropped (c : call) : bool :=
  match c with
  | Fprintln _ | File_Close _ => true
  | _ => false
  end.

(** The error [e] is the error of the last call of [evs]; when that call is
    the scan and its error the multiple-main sentinel, [e] is the sentinel
    under the message of [discoverMain]. *)
Definition failedLast (evs : list event) (e : error) : Prop :=
  evs <> [] /\
  (ev_err (lastEvent evs) = Some e \/
   (ev_err (lastEvent evs) = Some ErrMultipleMainPackagesFound /\
    e = Wrap ErrMultipleMainPackagesFound specifyMain)).

(** The error build.go makes of what a call returned: the error itself,
    except that the multiple-main sentinel returned by the scan is put
    under the message of [discoverMain] (lines 214-216). *)
Definition causeOf (ev : event) : option error :=
  match ev_call ev, ev_err ev with
  | goanalysis_DiscoverOneMain _, Some ErrMultipleMainPackagesFound =>
      Some (Wrap ErrMultipleMainPackagesFound specifyMain)
  | _, err => err
  end.

(** The last call of a run of [Build] is one that [Build] makes itself,
    outside [build]: [c.setup], or the [c.Binary] that follows the
    compiler.  The [c.Binary] of [build] comes before the compiler. *)
Definition outsideBuild (evs : list event) : bool :=
  match ev_call (lastEvent evs) with
  | c_setup => true
  | c_Binary => negb (Nat.eqb (List.length (buildPathsOf (calls evs))) 0)
  | _ => false
  end.

(** The streams [archive.Tar] returned. *)
Definition tarStreams (evs : list event) : list string :=
  flat_map (fun e => match ev_call e, ev_err e with
                     | archive_Tar _, None => [ev_ret e]
                     | _, _ => []
                     end) evs.

(** The calls on the archive files: opening, writing and closing, in the
    order they were made. *)
Definition fileOpsOf (cs : list call) : list call :=
  filter (fun c => match c with
                   | os_Create _ | io_Copy _ _ | File_Close _ => true
                   | _ => false
                   end) cs.

(** The calls on one archive file, lines 146-156: the file is created,
    the stream is copied into it, and it is closed. *)
Definition archiveSteps (fs : string * string) : list call :=
  [os_Create (fst fs); io_Copy (fst fs) (snd fs); File_Close (fst fs)].

(** One compiler invocation of [BuildRelease]: the target [t] built into
    the temporary directory [d]. *)
Definition releaseCompile (L : Lib) (binary mainPath : string)
    (buildFlags : list string) (dt : string * string)
  : string * string * string * list string * list (string * string) :=
  (fst dt, binary, mainPath, buildFlags, envOf L (snd dt)).

Module Example2.

(** The scan returns the multiple-main sentinel inside another error. *)
Definition wrappedMains : World :=
  Example.failing Example.isScan
    (Wrap ErrMultipleMainPackagesFound "scanning /src/mars")
    (Example.good chainconf.empty).

(** The scan finds no main package. *)
Definition noMain : World :=
  Example.failing Example.isScan (ErrorString "main package cannot be found")
    (Example.good chainconf.empty).

(** The configuration cannot be loaded. *)
Definition noConfig : World :=
  mkWorld (reply (Example.good chainconf.empty))
          (fun _ => (chainconf.empty, Some (ErrorString "config.yml: not found"))).

(** [go mod verify] fails. *)
Definition verifyFails : World :=
  Example.failing
    (fun c => match c with gocmd_ModVerify _ => true | _ => false end)
    (ErrorString "go.sum: checksum mismatch")
    (Example.good chainconf.empty).

(** The archiver fails. *)
Definition tarFails : World :=
  Example.failing
    (fun c => match c with archive_Tar _ => true | _ => false end)
    (ErrorString "tar: cannot read") (Example.good chainconf.empty).

(** Writing an archive fails once the file is open. *)
Definition copyFails : World :=
  Example.failing
    (fun c => match c with io_Copy _ _ => true | _ => false end)
    (ErrorString "write: no space left on device")
    (Example.good chainconf.empty).

(** Removing a directory and closing a file fail, and nothing else. *)
Definition cleanupFails : World :=
  Example.failing isCleanup (ErrorString "busy") (Example.good chainconf.empty).

(** The progress lines cannot be written, and nothing else fails. *)
Definition printFails : World :=
  Example.failing
    (fun c => match c with Fprintln _ => true | _ => false end)
    (ErrorString "write: broken pipe") (Example.good chainconf.empty).

End Example2.

(* ================================================================= *)
(** ** Observations and concatenation *)

Lemma calls_app (a b : list event) : calls (a ++ b) = calls a ++ calls b.
Proof. apply map_app. Qed.

Lemma removedOf_app (a b : list call) :
  removedOf (a ++ b) = removedOf a ++ removedOf b.
Proof. apply flat_map_app. Qed.

Lemma mkdirAllOf_app (a b : list call) :
  mkdirAllOf (a ++ b) = mkdirAllOf a ++ mkdirAllOf b.
Proof. apply flat_map_app. Qed.

Lemma compiledOf_app (a b : list call) :
  compiledOf (a ++ b) = compiledOf a ++ compiledOf b.
Proof. apply flat_map_app. Qed.

Lemma createdOf_app (a b : list call) :
  createdOf (a ++ b) = createdOf a ++ createdOf b.
Proof. apply flat_map_app. Qed.

Lemma checksumOf_app (a b : list call) :
  checksumOf (a ++ b) = checksumOf a ++ checksumOf b.
Proof. apply flat_map_app. Qed.

Lemma scannedOf_app (a b : list call) :
  scannedOf (a ++ b) = scannedOf a ++ scannedOf b.
Proof. apply flat_map_app. Qed.

Lemma dirOpsOf_app (a b : list call) :
  dirOpsOf (a ++ b) = dirOpsOf a ++ dirOpsOf b.
Proof. apply filter_app. Qed.

Lemma tempDirs_app (a b : list event) : tempDirs (a ++ b) = tempDirs a ++ tempDirs b.
Proof. apply flat_map_app. Qed.

Lemma written_app (a b : list event) : written (a ++ b) = written a ++ written b.
Proof. apply flat_map_app. Qed.

Lemma liveTemps_app (a b : list event) (live : list string) :
  liveTemps (a ++ b) live = liveTemps b (liveTemps a live).
Proof.
  revert live; induction a as [|e a IH]; intros live; simpl; [reflexivity|].
  destruct (ev_call e); destruct (ev_err e); apply IH.
Qed.

Create Rewrite HintDb obs.
#[export] Hint Rewrite calls_app removedOf_app mkdirAllOf_app compiledOf_app
  createdOf_app checksumOf_app scannedOf_app dirOpsOf_app tempDirs_app
  written_app
  app_nil_r app_nil_l : obs.

(** Unfold the computations down to the replies of the world, and split on
    every reply. *)
Ltac unfold_run :=
  unfold bind, invokeErr, invoke, Config, ret in *; simpl in *.

Ltac split_reply :=
  match goal with
  | |- context [reply ?W ?h ?c] =>
      let s := fresh "s" in let e := fresh "e" in
      destruct (reply W h c) as [s [e|]]; simpl
  | |- context [replyConfig ?W ?h] =>
      let s := fresh "conf" in let e := fresh "e" in
      destruct (replyConfig W h) as [s [e|]]; simpl
  | |- context [negb (?m =? "")%string] =>
      let E := fresh "E" in
      destruct (String.eqb_spec m "") as [E|E]; simpl
  | |- context [errors.eqMultipleMain ?x] =>
      let E := fresh "E" in
      destruct (errors.eqMultipleMain x) eqn:E; simpl
  end.

(** The same, keeping what each reply was. *)
Ltac split_reply_eqn :=
  match goal with
  | |- context [reply ?W ?h ?c] =>
      let s := fresh "s" in let e := fresh "e" in let R := fresh "R" in
      destruct (reply W h c) as [s [e|]] eqn:R; simpl
  | |- context [replyConfig ?W ?h] =>
      let s := fresh "conf" in let e := fresh "e" in let R := fresh "R" in
      destruct (replyConfig W h) as [s [e|]] eqn:R; simpl
  | |- context [negb (?m =? "")%string] =>
      let E := fresh "E" in
      destruct (String.eqb_spec m "") as [E|E]; simpl
  | |- context [errors.eqMultipleMain ?x] =>
      let E := fresh "E" in
      destruct (errors.eqMultipleMain x) eqn:E; simpl
  end.

(* ================================================================= *)
(** ** One target *)

Section Iteration.

Variables (L : Lib) (W : World).
Variables (binary mainPath : string) (buildFlags : list string).
Variables (releasePath prefix : string).

Let iter := buildTarget L W binary mainPath buildFlags releasePath prefix.

(** A token that does not parse ends the turn at once: no call is made and
    nothing is deferred. *)
Lemma buildTarget_parse_error t deferred h :
  parses t = false ->
  iter t deferred h = ((snd (gocmd.ParseTarget t), deferred), []).
Proof.
  unfold iter, buildTarget, parses.
  destruct (gocmd.ParseTarget t) as [[goos goarch] [e|]]; simpl;
    [reflexivity | discriminate].
Qed.

(** What a turn calls and defers, whatever the collaborators reply. *)
Lemma buildTarget_calls t deferred h :
  let r := iter t deferred h in
  removedOf (calls (snd r)) = [] /\
  checksumOf (calls (snd r)) = [] /\
  mkdirAllOf (calls (snd r)) = [] /\
  removedOf (snd (fst r)) = rev (tempDirs (snd r)) ++ removedOf deferred /\
  (forallb isCleanup deferred = true -> forallb isCleanup (snd (fst r)) = true).
Proof.
  unfold iter, buildTarget.
  destruct (gocmd.ParseTarget t) as [[goos goarch] [e|]]; simpl.
  - repeat split; auto.
  - unfold_run. repeat split_reply; repeat split; auto.
Qed.

(** A turn that returns no error compiled the target once and wrote its
    archive once. *)
Lemma buildTarget_ok t deferred h :
  let r := iter t deferred h in
  fst (fst r) = None ->
  parses t = true /\
  compiledOf (calls (snd r)) = [envOf L t] /\
  createdOf (calls (snd r)) = [archivePath releasePath prefix t] /\
  written (snd r) = [archivePath releasePath prefix t].
Proof.
  unfold iter, buildTarget, parses, envOf, archivePath.
  destruct (gocmd.ParseTarget t) as [[goos goarch] [e|]]; simpl.
  - discriminate.
  - unfold_run. repeat split_reply; intros; try discriminate; repeat split; auto.
Qed.

(** A turn that returns an error wrote no archive, and invoked the
    compiler at most once, for its own target. *)
Lemma buildTarget_error t deferred h e :
  let r := iter t deferred h in
  fst (fst r) = Some e ->
  written (snd r) = [] /\
  (compiledOf (calls (snd r)) = [] \/
   parses t = true /\ compiledOf (calls (snd r)) = [envOf L t]).
Proof.
  unfold iter, buildTarget, parses, envOf.
  destruct (gocmd.ParseTarget t) as [[goos goarch] [e'|]]; simpl.
  - auto.
  - unfold_run. repeat split_reply; intros; try discriminate; split; auto.
Qed.

End Iteration.

(* ================================================================= *)
(** ** The loop over the targets *)

Section Loop.

Variables (L : Lib) (W : World).
Variables (binary mainPath : string) (buildFlags : list string).
Variables (releasePath prefix : string).

Let iter := buildTarget L W binary mainPath buildFlags releasePath prefix.
Let loop := buildTargets L W binary mainPath buildFlags releasePath prefix.

Lemma buildTargets_nil deferred h : loop [] deferred h = ((None, deferred), []).
Proof. reflexivity. Qed.

Lemma buildTargets_cons t rest deferred h :
  loop (t :: rest) deferred h =
  let r := iter t deferred h in
  match fst (fst r) with
  | Some e => ((Some e, snd (fst r)), snd r)
  | None =>
      let r' := loop rest (snd (fst r)) (h ++ snd r) in
      (fst r', snd r ++ snd r')
  end.
Proof.
  unfold loop, iter; simpl; unfold bind.
  destruct (buildTarget _ _ _ _ _ _ _ _ _ _) as [[[e|] ds] evs]; simpl.
  - unfold ret; rewrite app_nil_r; reflexivity.
  - destruct (buildTargets _ _ _ _ _ _ _ _ _ _) as [b evs']; reflexivity.
Qed.

(** The loop removes nothing and writes no checksum; it defers one removal
    for each temporary directory it created, the last one first. *)
Lemma buildTargets_calls targets : forall deferred h,
  let r := loop targets deferred h in
  removedOf (calls (snd r)) = [] /\
  checksumOf (calls (snd r)) = [] /\
  mkdirAllOf (calls (snd r)) = [] /\
  removedOf (snd (fst r)) = rev (tempDirs (snd r)) ++ removedOf deferred /\
  (forallb isCleanup deferred = true -> forallb isCleanup (snd (fst r)) = true).
Proof.
  induction targets as [|t rest IH]; intros deferred h.
  - rewrite buildTargets_nil; simpl; auto.
  - rewrite buildTargets_cons.
    pose proof (buildTarget_calls L W binary mainPath buildFlags releasePath
                  prefix t deferred h) as Ht.
    fold iter in Ht; cbv zeta in Ht.
    destruct (iter t deferred h) as [[[e|] ds] evs]; simpl in *; [exact Ht|].
    destruct Ht as (R1 & C1 & M1 & D1 & K1).
    specialize (IH ds (h ++ evs)); cbv zeta in IH.
    destruct (loop rest ds (h ++ evs)) as [[err ds'] evs']; simpl in *.
    destruct IH as (R2 & C2 & M2 & D2 & K2).
    autorewrite with obs.
    rewrite R1, R2, C1, C2, M1, M2, D2, D1, rev_app_distr, app_assoc.
    repeat split; auto.
Qed.

(** A loop that returns no error compiled every target and wrote every
    archive, once each and in the order of the targets. *)
Lemma buildTargets_ok targets : forall deferred h,
  let r := loop targets deferred h in
  fst (fst r) = None ->
  forallb parses targets = true /\
  compiledOf (calls (snd r)) = map (envOf L) targets /\
  createdOf (calls (snd r)) = map (archivePath releasePath prefix) targets /\
  written (snd r) = map (archivePath releasePath prefix) targets.
Proof.
  induction targets as [|t rest IH]; intros deferred h.
  - rewrite buildTargets_nil; simpl; auto.
  - rewrite buildTargets_cons.
    pose proof (buildTarget_ok L W binary mainPath buildFlags releasePath
                  prefix t deferred h) as Ht.
    fold iter in Ht; cbv zeta in Ht.
    destruct (iter t deferred h) as [[[e|] ds] evs]; simpl in *; [discriminate|].
    destruct (Ht eq_refl) as (P1 & C1 & K1 & W1).
    specialize (IH ds (h ++ evs)); cbv zeta in IH.
    destruct (loop rest ds (h ++ evs)) as [[err ds'] evs']; simpl in *.
    intros ->. destruct (IH eq_refl) as (P2 & C2 & K2 & W2).
    autorewrite with obs.
    rewrite P1, P2, C1, C2, K1, K2, W1, W2. auto.
Qed.

(** In every run of the loop the archives written are those of the first
    [n] targets, the compiler ran for these and at most for the next one,
    and every target the compiler ran for had a token that parsed. *)
Lemma buildTargets_progress targets : forall deferred h,
  let r := loop targets deferred h in
  exists n m,
    n <= m /\ m <= S n /\ m <= List.length targets /\
    written (snd r) = map (archivePath releasePath prefix) (firstn n targets) /\
    compiledOf (calls (snd r)) = map (envOf L) (firstn m targets) /\
    forallb parses (firstn m targets) = true /\
    (fst (fst r) = None -> n = List.length targets).
Proof.
  induction targets as [|t rest IH]; intros deferred h.
  - rewrite buildTargets_nil; exists 0, 0; simpl; repeat split; auto.
  - rewrite buildTargets_cons.
    pose proof (buildTarget_ok L W binary mainPath buildFlags releasePath
                  prefix t deferred h) as Hok.
    pose proof (buildTarget_error L W binary mainPath buildFlags releasePath
                  prefix t deferred h) as Herr.
    fold iter in Hok, Herr; cbv zeta in Hok, Herr.
    destruct (iter t deferred h) as [[[e|] ds] evs]; simpl in *.
    + destruct (Herr e eq_refl) as (W1 & [C1 | [P1 C1]]).
      * exists 0, 0; simpl; repeat split; auto; try lia; discriminate.
      * exists 0, 1; simpl; rewrite P1; repeat split; auto; try lia; discriminate.
    + destruct (Hok eq_refl) as (P1 & C1 & K1 & W1).
      specialize (IH ds (h ++ evs)); cbv zeta in IH.
      destruct (loop rest ds (h ++ evs)) as [[err ds'] evs']; simpl in *.
      destruct IH as (n & m & Hnm & Hmn & Hm & W2 & C2 & P2 & E2).
      exists (S n), (S m); simpl. autorewrite with obs.
      rewrite W1, W2, C1, C2, P1, P2.
      repeat split; auto; try lia.
Qed.

(** The loop over [pre ++ rest] is the loop over [pre], followed, when
    that returned no error, by the loop over [rest]. *)
Lemma buildTargets_app pre rest : forall deferred h,
  loop (pre ++ rest) deferred h =
  let r := loop pre deferred h in
  match fst (fst r) with
  | Some e => r
  | None =>
      let r' := loop rest (snd (fst r)) (h ++ snd r) in
      (fst r', snd r ++ snd r')
  end.
Proof.
  induction pre as [|t pre IH]; intros deferred h.
  - rewrite buildTargets_nil; simpl. rewrite app_nil_r.
    destruct (loop rest deferred h); reflexivity.
  - rewrite <- app_comm_cons, !buildTargets_cons; cbv zeta.
    destruct (iter t deferred h) as [[[e|] ds] evs]; simpl; [reflexivity|].
    rewrite IH; cbv zeta.
    destruct (loop pre ds (h ++ evs)) as [[[e|] ds'] evs']; simpl; [reflexivity|].
    rewrite !app_assoc; reflexivity.
Qed.

(** The loop stops at the first token that does not parse: it returns the
    parse error, having made the calls of the targets before it and no
    other. *)
Lemma buildTargets_stops pre t post deferred h deferred' evs :
  loop pre deferred h = ((None, deferred'), evs) ->
  parses t = false ->
  loop (pre ++ t :: post) deferred h =
  ((snd (gocmd.ParseTarget t), deferred'), evs).
Proof.
  intros Hpre Ht.
  rewrite buildTargets_app; cbv zeta; rewrite Hpre; simpl.
  rewrite buildTargets_cons; cbv zeta.
  unfold iter; rewrite buildTarget_parse_error by exact Ht; simpl.
  unfold parses in Ht.
  destruct (snd (gocmd.ParseTarget t)); [|discriminate].
  rewrite app_nil_r; reflexivity.
Qed.

End Loop.

(* ================================================================= *)
(** ** The deferred calls *)

Lemma runDeferred_calls W deferred : forall h,
  calls (snd (runDeferred W deferred h)) = deferred.
Proof.
  induction deferred as [|d rest IH]; intros h; simpl; [reflexivity|].
  unfold bind, invoke; simpl.
  specialize (IH (h ++ [mkEvent d (fst (reply W h d)) (snd (reply W h d))])).
  destruct (runDeferred W rest _) as [u evs]; simpl in *.
  rewrite IH; reflexivity.
Qed.

Lemma cleanup_no_temp (evs : list event) :
  forallb isCleanup (calls evs) = true -> tempDirs evs = [] /\ written evs = [].
Proof.
  induction evs as [|e evs IH]; simpl; [auto|].
  intros H; apply andb_true_iff in H; destruct H as [He H].
  destruct (IH H) as [T Wr]. unfold tempDirs, written in *; simpl.
  rewrite T, Wr. destruct (ev_call e); simpl in *; try discriminate; auto.
Qed.

Lemma cleanup_observed (cs : list call) :
  forallb isCleanup cs = true ->
  compiledOf cs = [] /\ createdOf cs = [] /\ checksumOf cs = [] /\
  mkdirAllOf cs = [] /\ scannedOf cs = [].
Proof.
  induction cs as [|c cs IH]; simpl; [auto|].
  intros H; apply andb_true_iff in H; destruct H as [Hc H].
  destruct (IH H) as (A & B & C & D' & E).
  destruct c; simpl in *; try discriminate; auto.
Qed.

(** Where no directory is made, the directory calls are the removals. *)
Lemma dirOpsOf_removals (cs : list call) :
  mkdirAllOf cs = [] -> dirOpsOf cs = map os_RemoveAll (removedOf cs).
Proof.
  induction cs as [|c cs IH]; simpl; [reflexivity|].
  destruct c; simpl; intros H; try (apply IH; exact H); try discriminate.
  rewrite IH by exact H; reflexivity.
Qed.

(* ================================================================= *)
(** ** The steps before the loop *)

Lemma quiet_nil : quiet [].
Proof. repeat split. Qed.

Lemma quiet_app (a b : list event) : quiet a -> quiet b -> quiet (a ++ b).
Proof.
  unfold quiet; intros (A1 & A2 & A3 & A4 & A5 & A6) (B1 & B2 & B3 & B4 & B5 & B6).
  autorewrite with obs.
  rewrite A1, A2, A3, A4, A5, A6, B1, B2, B3, B4, B5, B6; repeat split.
Qed.

Section Prepare.

Variables (L : Lib) (W : World) (c : Chain).

Lemma preBuild_quiet h : quiet (snd (preBuild L W c h)).
Proof.
  unfold preBuild; unfold_run; repeat split_reply; repeat split.
Qed.

Lemma discoverMain_quiet path h : quiet (snd (discoverMain W c path h)).
Proof.
  unfold discoverMain; unfold_run; repeat split_reply; repeat split.
Qed.

Variable output : string.

(** The steps before the loop: calls that touch no directory, then the
    calls on the release directory.  That directory is removed only when
    [output] is empty, and then it is the default directory, removed
    before it is made. *)
Lemma prepareRelease_run h :
  let p := prepareRelease L W c output h in
  let d := filepath.Join (Path (app c)) releaseDir in
  let reset := if (output =? "")%string then [os_RemoveAll d] else [] in
  exists before after,
    snd p = before ++ after /\ quiet before /\
    tempDirs after = [] /\ written after = [] /\
    compiledOf (calls after) = [] /\ createdOf (calls after) = [] /\
    checksumOf (calls after) = [] /\
    (snd (fst p) = None ->
       snd (fst (fst p)) = releasePathOf c output /\
       calls after = reset ++ [os_MkdirAll (releasePathOf c output) 493]) /\
    (snd (fst p) <> None ->
       calls after = [] \/
       (output = "" /\ calls after = [os_RemoveAll d]) \/
       calls after = reset ++ [os_MkdirAll (releasePathOf c output) 493]).
Proof.
  cbv zeta.
  destruct (prepareRelease L W c output h) as [[[[[f b] m] rp] err] evs] eqn:H.
  simpl. revert H.
  unfold prepareRelease, releasePathOf; cbv zeta.
  unfold bind at 1, invokeErr, bind at 1, invoke, ret; simpl.
  destruct (reply W h c_setup) as [s0 [e0|]]; simpl.
  { intros H; inversion H; subst; clear H.
    exists [mkEvent c_setup s0 (Some e0)], []; rewrite app_nil_r.
    repeat split; auto; discriminate. }
  unfold bind at 1.
  pose proof (preBuild_quiet (h ++ [mkEvent c_setup s0 None])) as QP.
  destruct (preBuild L W c _) as [[flags [e1|]] evsP]; simpl in *.
  { intros H; inversion H; subst; clear H.
    exists (mkEvent c_setup s0 None :: evsP), []; rewrite !app_nil_r.
    assert (Q : quiet (mkEvent c_setup s0 None :: evsP)).
    { apply (@quiet_app [mkEvent c_setup s0 None]); [repeat split | exact QP]. }
    repeat split; auto; try discriminate; apply Q. }
  unfold bind at 1, invoke; simpl.
  destruct (reply W _ c_Binary) as [binary [e2|]]; simpl.
  { intros H; inversion H; subst; clear H.
    exists (mkEvent c_setup s0 None :: evsP ++ [mkEvent c_Binary binary (Some e2)]), [].
    rewrite !app_nil_r. 
    assert (Q : quiet (mkEvent c_setup s0 None
                         :: evsP ++ [mkEvent c_Binary binary (Some e2)])).
    { apply (@quiet_app [mkEvent c_setup s0 None]); [repeat split|].
      apply quiet_app; [exact QP | repeat split]. }
    repeat split; auto; try discriminate; apply Q. }
  unfold bind at 1.
  match goal with
  | |- context [discoverMain W c ?p ?hh] =>
      pose proof (discoverMain_quiet p hh) as QD;
      destruct (discoverMain W c p hh) as [[mainPath [e3|]] evsD]; simpl in *
  end.
  { intros H; inversion H; subst; clear H.
    exists (mkEvent c_setup s0 None :: evsP ++ mkEvent c_Binary binary None :: evsD), [].
    rewrite !app_nil_r.
    assert (Q : quiet (mkEvent c_setup s0 None
                         :: evsP ++ mkEvent c_Binary binary None :: evsD)).
    { apply (@quiet_app [mkEvent c_setup s0 None]); [repeat split|].
      apply quiet_app; [exact QP|].
      apply (@quiet_app [mkEvent c_Binary binary None]); [repeat split | exact QD]. }
    repeat split; auto; try discriminate; apply Q. }
  pose (before := mkEvent c_setup s0 None
                    :: evsP ++ mkEvent c_Binary binary None :: evsD).
  assert (QB : quiet before).
  { apply (@quiet_app [mkEvent c_setup s0 None]); [repeat split|].
    apply quiet_app; [exact QP|].
    apply (@quiet_app [mkEvent c_Binary binary None]); [repeat split | exact QD]. }
  destruct (String.eqb_spec output "") as [E|E].
  - unfold bind, invoke, ret; simpl.
    destruct (reply W _ (os_RemoveAll _)) as [s4 [e4|]]; simpl.
    + intros H; inversion H; subst; clear H.
      exists before; eexists; split;
        [unfold before; simpl; repeat (rewrite <- app_assoc; simpl); reflexivity|].
      split; [exact QB|]. repeat split; auto; try discriminate.
    + destruct (reply W _ (os_MkdirAll _ _)) as [s5 [e5|]]; simpl.
      * intros H; inversion H; subst; clear H.
        exists before; eexists; split;
        [unfold before; simpl; repeat (rewrite <- app_assoc; simpl); reflexivity|].
        split; [exact QB|]. repeat split; auto; try discriminate.
      * intros H; inversion H; subst; clear H.
        exists before; eexists; split;
        [unfold before; simpl; repeat (rewrite <- app_assoc; simpl); reflexivity|].
        split; [exact QB|]. repeat split; auto; try discriminate; congruence.
  - unfold bind, invoke, ret; simpl.
    destruct (reply W _ (os_MkdirAll _ _)) as [s5 [e5|]]; simpl.
    + intros H; inversion H; subst; clear H.
      exists before; eexists; split;
        [unfold before; simpl; repeat (rewrite <- app_assoc; simpl); reflexivity|].
      split; [exact QB|]. repeat split; auto; try discriminate.
    + intros H; inversion H; subst; clear H.
      exists before; eexists; split;
        [unfold before; simpl; repeat (rewrite <- app_assoc; simpl); reflexivity|].
      split; [exact QB|]. repeat split; auto; try discriminate; congruence.
Qed.

End Prepare.

(* ================================================================= *)
(** ** BuildRelease, step by step *)

Lemma BuildRelease_unfold L W c output prefix targets h :
  BuildRelease L W c output prefix targets h =
  let p := prepareRelease L W c output h in
  let '(buildFlags, binary, mainPath, releasePath, err) := fst p in
  match err with
  | Some e => (("", Some e), snd p)
  | None =>
      let l := buildTargets L W binary mainPath buildFlags releasePath
                 (defaultPrefix c prefix) (defaultTargets L targets) []
                 (h ++ snd p) in
      match fst (fst l) with
      | Some e =>
          let d := runDeferred W (snd (fst l)) ((h ++ snd p) ++ snd l) in
          (("", Some e), snd p ++ snd l ++ snd d)
      | None =>
          let sum := checksum_Sum releasePath (filepath.Join releasePath checksumTxt) in
          let s := reply W ((h ++ snd p) ++ snd l) sum in
          let sev := mkEvent sum (fst s) (snd s) in
          let d := runDeferred W (snd (fst l)) (((h ++ snd p) ++ snd l) ++ [sev]) in
          ((releasePath, snd s), snd p ++ snd l ++ sev :: snd d)
      end
  end.
Proof.
  unfold BuildRelease, bind at 1.
  destruct (prepareRelease L W c output h) as [[[[[f b] m] rp] [e|]] evs0]; simpl.
  - rewrite app_nil_r; reflexivity.
  - unfold bind at 1.
    destruct (buildTargets _ _ _ _ _ _ _ _ _ _) as [[[e|] ds] evs1]; simpl.
    + unfold bind at 1.
      destruct (runDeferred W ds _) as [u evsD]; simpl.
      rewrite app_nil_r; reflexivity.
    + unfold bind, invokeErr, invoke, ret; simpl.
      destruct (runDeferred W ds _) as [u evsD]; simpl.
      rewrite app_nil_r; reflexivity.
Qed.

(** Every run of [BuildRelease] is made of four parts: the steps before the
    loop, the loop, the checksum, and the deferred calls.  The lemma says
    what each part called; the theorems about [BuildRelease] read it off. *)
Lemma BuildRelease_run L W c output prefix targets h :
  let r := BuildRelease L W c output prefix targets h in
  let targets' := defaultTargets L targets in
  let prefix' := defaultPrefix c prefix in
  let rp := releasePathOf c output in
  let d := filepath.Join (Path (app c)) releaseDir in
  let reset := if (output =? "")%string then [os_RemoveAll d] else [] in
  exists evsP evsL evsS evsD n m,
    snd r = evsP ++ evsL ++ evsS ++ evsD /\
    (tempDirs evsP = [] /\ written evsP = [] /\ compiledOf (calls evsP) = [] /\
     createdOf (calls evsP) = [] /\ checksumOf (calls evsP) = []) /\
    (dirOpsOf (calls evsP) = reset ++ [os_MkdirAll rp 493] \/
     (evsL = [] /\ evsS = [] /\ evsD = [] /\
      (dirOpsOf (calls evsP) = [] \/
       (output = "" /\ dirOpsOf (calls evsP) = [os_RemoveAll d])))) /\
    (dirOpsOf (calls evsL) = [] /\ checksumOf (calls evsL) = [] /\
     n <= m /\ m <= S n /\ m <= List.length targets' /\
     written evsL = map (archivePath rp prefix') (firstn n targets') /\
     compiledOf (calls evsL) = map (envOf L) (firstn m targets') /\
     forallb parses (firstn m targets') = true) /\
    (forallb isCleanup (calls evsD) = true /\
     removedOf (calls evsD) = rev (tempDirs evsL)) /\
    ((evsS = [] /\ fst (fst r) = "" /\ snd (fst r) <> None) \/
     (exists s,
        evsS = [mkEvent (checksum_Sum rp (filepath.Join rp checksumTxt)) s
                        (snd (fst r))] /\
        fst (fst r) = rp /\ n = List.length targets' /\
        dirOpsOf (calls evsP) = reset ++ [os_MkdirAll rp 493] /\
        createdOf (calls evsL) = map (archivePath rp prefix') targets')).
Proof.
  cbv zeta. rewrite BuildRelease_unfold; cbv zeta.
  pose proof (prepareRelease_run L W c output h) as Hp; cbv zeta in Hp.
  destruct (prepareRelease L W c output h) as [[[[[f b] mp] rp] [e|]] evs0];
    simpl in *;
    destruct Hp as (before & after & -> & (Q1 & Q2 & Q3 & Q4 & Q5 & Q6)
                    & A1 & A2 & A3 & A4 & A5 & Hok & Herr).
  - (* a step before the loop failed *)
    exists (before ++ after), [], [], [], 0, 0; simpl.
    autorewrite with obs.
    rewrite Q1, Q2, Q3, Q4, Q5, Q6, A1, A2, A3, A4, A5; simpl.
    repeat split; auto; try lia.
    + destruct (Herr ltac:(discriminate)) as [H | [[H1 H2] | H]].
      * rewrite H; right; repeat split; auto.
      * rewrite H2; right; repeat split; auto.
      * rewrite H; left; destruct (output =? "")%string; reflexivity.
    + left; repeat split; auto; discriminate.
  - destruct (Hok eq_refl) as [-> Hcalls]; clear Hok Herr.
    set (rp := releasePathOf c output) in *.
    set (h1 := h ++ before ++ after).
    pose proof (buildTargets_calls L W b mp f rp (defaultPrefix c prefix)
                  (defaultTargets L targets) [] h1) as Hc.
    pose proof (buildTargets_progress L W b mp f rp (defaultPrefix c prefix)
                  (defaultTargets L targets) [] h1) as Hg.
    pose proof (buildTargets_ok L W b mp f rp (defaultPrefix c prefix)
                  (defaultTargets L targets) [] h1) as Ho.
    cbv zeta in Hc, Hg, Ho.
    destruct (buildTargets _ _ _ _ _ _ _ _ _ _) as [[err ds] evs1]; simpl in *.
    destruct Hc as (R1 & C1 & M1 & D1 & K1).
    destruct Hg as (n & m & Hnm & Hmn & Hm & Wr & Cp & Ps & En).
    rewrite app_nil_r in D1. specialize (K1 eq_refl).
    assert (DL : dirOpsOf (calls evs1) = []).
    { rewrite dirOpsOf_removals by exact M1. rewrite R1; reflexivity. }
    assert (DP : dirOpsOf (calls before) ++ dirOpsOf (calls after) =
                 (if (output =? "")%string
                  then [os_RemoveAll (filepath.Join (Path (app c)) releaseDir)]
                  else []) ++ [os_MkdirAll rp 493]).
    { rewrite Q1, Hcalls; simpl.
      destruct (output =? "")%string; reflexivity. }
    destruct err as [e|]; simpl.
    + (* the loop failed *)
      pose proof (runDeferred_calls W ds (h1 ++ evs1)) as Hd.
      destruct (runDeferred W ds (h1 ++ evs1)) as [u evsD]; simpl in *.
      exists (before ++ after), evs1, [], evsD, n, m; simpl.
      rewrite Hd. autorewrite with obs.
      rewrite Q2, Q3, Q4, Q5, Q6, A1, A2, A3, A4, A5; simpl.
      repeat split; auto.
      left; repeat split; auto; discriminate.
    + (* the loop went through: the checksum *)
      destruct (Ho eq_refl) as (P2 & C2 & K2 & W2).
      match goal with
      | |- context [runDeferred W ds ?hh] =>
          pose proof (runDeferred_calls W ds hh) as Hd;
          destruct (runDeferred W ds hh) as [u evsD]; simpl in *
      end.
      match goal with
      | |- context [mkEvent ?cc ?s ?ee :: evsD] =>
          exists (before ++ after), evs1, [mkEvent cc s ee], evsD, n, m
      end; simpl.
      rewrite Hd. autorewrite with obs.
      rewrite Q2, Q3, Q4, Q5, Q6, A1, A2, A3, A4, A5; simpl.
      repeat split; auto.
      right; eexists; repeat split; auto.
Qed.

(* ================================================================= *)
(** ** BuildRelease hands errors on as they come *)

Lemma eqMultipleMain_true (err : option error) :
  errors.eqMultipleMain err = true -> err = Some ErrMultipleMainPackagesFound.
Proof.
  unfold errors.eqMultipleMain.
  destruct err as [[]|]; intros H; try discriminate; reflexivity.
Qed.


Lemma failedCalls_app (a b : list event) :
  failedCalls (a ++ b) = failedCalls a ++ failedCalls b.
Proof. apply flat_map_app. Qed.

Lemma cameFrom_app_r (a b : list event) (e : error) :
  cameFrom b e -> cameFrom (a ++ b) e.
Proof.
  unfold cameFrom; intros [H | H]; [left | right; exact H].
  rewrite failedCalls_app, map_app. apply in_or_app; right; exact H.
Qed.

Lemma cameFrom_app_l (a b : list event) (e : error) :
  cameFrom a e -> cameFrom (a ++ b) e.
Proof.
  unfold cameFrom; intros [H | H]; [left | right; exact H].
  rewrite failedCalls_app, map_app. apply in_or_app; left; exact H.
Qed.

Ltac from_last_call :=
  intros H; try discriminate; injection H as <-;
  try (left; simpl; auto 20; fail).

Lemma prepareRelease_origin L W c output h e :
  snd (fst (prepareRelease L W c output h)) = Some e ->
  cameFrom (snd (prepareRelease L W c output h)) e.
Proof.
  unfold prepareRelease, preBuild, discoverMain, cameFrom, failedCalls; cbv zeta.
  destruct (output =? "")%string; unfold_run;
    repeat split_reply; from_last_call;
    apply eqMultipleMain_true in E0; injection E0 as ->; auto.
Qed.

Lemma buildTarget_origin L W binary mainPath buildFlags releasePath prefix
      t deferred h e :
  let r := buildTarget L W binary mainPath buildFlags releasePath prefix
             t deferred h in
  fst (fst r) = Some e -> cameFrom (snd r) e.
Proof.
  unfold buildTarget, cameFrom, failedCalls, gocmd.ParseTarget.
  destruct (strings.Split t ":"%char) as [|p1 [|p2 [|p3 ps]]]; simpl;
    try (intros H; injection H as <-; auto; fail).
  unfold_run. repeat split_reply; from_last_call.
Qed.

Lemma buildTargets_origin L W binary mainPath buildFlags releasePath prefix
      targets : forall deferred h e,
  let r := buildTargets L W binary mainPath buildFlags releasePath prefix
             targets deferred h in
  fst (fst r) = Some e -> cameFrom (snd r) e.
Proof.
  induction targets as [|t rest IH]; intros deferred h e.
  - rewrite buildTargets_nil; discriminate.
  - rewrite buildTargets_cons; cbv zeta.
    pose proof (@buildTarget_origin L W binary mainPath buildFlags releasePath
                  prefix t deferred h) as Ht; cbv zeta in Ht.
    destruct (buildTarget _ _ _ _ _ _ _ _ _ _) as [[[e'|] ds] evs]; simpl in *.
    + exact (Ht e).
    + intros H. apply cameFrom_app_r. exact (IH ds (h ++ evs) e H).
Qed.

(** The error [BuildRelease] returns is the error of one of its calls, or
    the parse error, or the sentinel under the message of [discoverMain]:
    [BuildRelease] puts no error in a [CannotBuildAppError]. *)
Lemma BuildRelease_origin L W c output prefix targets h e :
  snd (fst (BuildRelease L W c output prefix targets h)) = Some e ->
  cameFrom (snd (BuildRelease L W c output prefix targets h)) e.
Proof.
  rewrite BuildRelease_unfold; cbv zeta.
  pose proof (@prepareRelease_origin L W c output h) as Hp.
  destruct (prepareRelease L W c output h) as [[[[[f b] mp] rp] [e0|]] evs0];
    simpl in *; [exact (Hp e)|].
  pose proof (@buildTargets_origin L W b mp f rp (defaultPrefix c prefix)
                (defaultTargets L targets) [] (h ++ evs0)) as Hl.
  cbv zeta in Hl.
  destruct (buildTargets _ _ _ _ _ _ _ _ _ _) as [[[e1|] ds] evs1]; simpl in *.
  - intros H. apply cameFrom_app_r, cameFrom_app_l. exact (Hl e H).
  - intros H. apply cameFrom_app_r, cameFrom_app_r.
    left. simpl. rewrite H. left; reflexivity.
Qed.

Lemma BuildRelease_never_reclassifies L W c output prefix targets h e :
  (forall x, In x (map snd (failedCalls
                              (snd (BuildRelease L W c output prefix targets h))))
             -> isCannotBuildApp x = false) ->
  snd (fst (BuildRelease L W c output prefix targets h)) = Some e ->
  isCannotBuildApp e = false.
Proof.
  intros Hx He. destruct (BuildRelease_origin _ _ _ _ _ _ _ He) as [H | [-> | ->]].
  - exact (Hx e H).
  - reflexivity.
  - reflexivity.
Qed.

(* ================================================================= *)
(** ** Paths and target tokens *)

Lemma Clean_not_empty (path : string) : filepath.Clean path <> "".
Proof.
  unfold filepath.Clean.
  match goal with
  | |- (if (?x =? "")%string then _ else _) <> _ =>
      destruct (String.eqb_spec x ""); [discriminate | assumption]
  end.
Qed.

Lemma Join_not_empty (a b : string) : b <> "" -> filepath.Join a b <> "".
Proof.
  intros Hb; unfold filepath.Join.
  destruct (String.eqb_spec a ""); simpl.
  - destruct (String.eqb_spec b ""); simpl; [contradiction | apply Clean_not_empty].
  - apply Clean_not_empty.
Qed.

Lemma releasePathOf_not_empty (c : Chain) (output : string) :
  releasePathOf c output <> "".
Proof.
  unfold releasePathOf.
  destruct (String.eqb_spec output ""); [|assumption].
  apply Join_not_empty; discriminate.
Qed.

Lemma Split_not_nil (s : string) (sep : ascii) : strings.Split s sep <> [].
Proof.
  destruct s as [|ch rest]; simpl; [discriminate|].
  destruct (Ascii.eqb ch sep); [discriminate|].
  destruct (strings.Split rest sep); discriminate.
Qed.

(** A string that splits into one piece is that piece. *)
Lemma Split_one (s : string) (sep : ascii) (piece : string) :
  strings.Split s sep = [piece] -> piece = s.
Proof.
  revert piece; induction s as [|ch rest IH]; simpl; intros piece H.
  - congruence.
  - destruct (Ascii.eqb ch sep).
    + exfalso. injection H as _ H. exact (Split_not_nil _ _ H).
    + destruct (strings.Split rest sep) as [|p ps] eqn:E.
      * exfalso; exact (Split_not_nil _ _ E).
      * injection H as <- ->. rewrite (IH p eq_refl); reflexivity.
Qed.

Lemma Split_append (a b : string) (sep : ascii) :
  strings.Split (a ++ String sep b) sep = strings.Split a sep ++ strings.Split b sep.
Proof.
  induction a as [|ch rest IH]; simpl.
  - rewrite Ascii.eqb_refl; reflexivity.
  - destruct (Ascii.eqb ch sep); rewrite IH; [reflexivity|].
    destruct (strings.Split rest sep) as [|p ps] eqn:E; [|reflexivity].
    exfalso; exact (Split_not_nil _ _ E).
Qed.

(** The token built from the host's pair parses only to that pair. *)
Lemma ParseTarget_BuildTarget (goos goarch : string) :
  parses (gocmd.BuildTarget goos goarch) = true ->
  gocmd.ParseTarget (gocmd.BuildTarget goos goarch) = (goos, goarch, None).
Proof.
  unfold parses, gocmd.ParseTarget, gocmd.BuildTarget.
  change (goos ++ ":" ++ goarch)%string with (goos ++ String ":"%char goarch)%string.
  rewrite Split_append.
  destruct (strings.Split goos ":"%char) as [|p1 [|p2 ps]] eqn:E1;
    [exfalso; exact (Split_not_nil _ _ E1) | |];
  (destruct (strings.Split goarch ":"%char) as [|q1 [|q2 qs]] eqn:E2;
    [exfalso; exact (Split_not_nil _ _ E2) | |]); simpl.
  - intros _. rewrite (Split_one _ _ E1), (Split_one _ _ E2); reflexivity.
  - discriminate.
  - destruct ps; simpl; discriminate.
  - destruct ps; simpl; discriminate.
Qed.

Lemma parses_error (t : string) :
  parses t = false -> snd (gocmd.ParseTarget t) = Some TargetParseError.
Proof.
  unfold parses, gocmd.ParseTarget.
  destruct (strings.Split t ":"%char) as [|p1 [|p2 [|p3 ps]]]; simpl;
    intros H; try reflexivity; discriminate.
Qed.

(* ================================================================= *)
(** ** Build: which errors are reclassified *)

Lemma Build_unfold L W c output h :
  Build L W c output h =
  let s := reply W h c_setup in
  let sev := mkEvent c_setup (fst s) (snd s) in
  match snd s with
  | Some e => (("", Some e), [sev])
  | None =>
      let b := buildBody L W c output (h ++ [sev]) in
      match reclassify (fst b) with
      | Some e => (("", Some e), sev :: snd b)
      | None =>
          let t := reply W ((h ++ [sev]) ++ snd b) c_Binary in
          (t, sev :: snd b ++ [mkEvent c_Binary (fst t) (snd t)])
      end
  end.
Proof.
  unfold Build, build, bind, invokeErr, invoke, ret; simpl.
  destruct (reply W h c_setup) as [s0 [e0|]]; simpl; [reflexivity|].
  destruct (buildBody L W c output _) as [[e|] evs]; simpl;
    rewrite ?app_nil_r.
  - destruct (errors.AsExitError e || errors.IsMultipleMain e); simpl;
      rewrite ?app_nil_r; reflexivity.
  - reflexivity.
Qed.

(** C1 as stated fails in two ways.  [BuildRelease] has no deferred
    function: when the compiler exits with a status that is not zero, the
    exit error comes back as it is.  And in [Build] the deferred function
    looks at every error of [build]: an exit error of [go mod tidy], a
    dependency error, comes back in a [CannotBuildAppError]. *)
Lemma C1_counterexample :
  map (fun f => (Example.isCompile (fst f), snd f))
      (failedCalls (snd (BuildRelease Example.lib Example.compilerExits
                           Example.mars "/out" "foo" ["linux:amd64"] [])))
  = [(true, ExitError 2)] /\
  fst (BuildRelease Example.lib Example.compilerExits
         Example.mars "/out" "foo" ["linux:amd64"] [])
  = ("", Some (ExitError 2)) /\
  isCannotBuildApp (ExitError 2) = false /\
  map (fun f => (Example.isModTidy (fst f), snd f))
      (failedCalls (snd (Build Example.lib Example.tidyExits
                           Example.mars "/out" [])))
  = [(true, ExitError 1)] /\
  fst (Build Example.lib Example.tidyExits Example.mars "/out" [])
  = ("", Some (CannotBuildAppError (ExitError 1))).
Proof.
  repeat split; reflexivity.
Qed.

(* ================================================================= *)
(** ** The entry point *)

(** C5.  When the configuration names an entry point, [discoverMain] returns
    the join of the source root with that path and no error.  The only call
    it makes is the one that loads the configuration: the source tree is not
    scanned, so neither the file's existence nor the number of main packages
    in the tree plays any part. *)
Theorem C5_explicit_main_no_scan W c path h conf :
  replyConfig W h = (conf, None) ->
  chainconf.Main (chainconf.Build conf) <> "" ->
  discoverMain W c path h =
    ((filepath.Join (Path (app c)) (chainconf.Main (chainconf.Build conf)), None),
     [mkEvent c_Config "" None]) /\
  scannedOf (calls (snd (discoverMain W c path h))) = [].
Proof.
  intros Hc Hm. unfold discoverMain; unfold_run. rewrite Hc; simpl.
  destruct (String.eqb_spec (chainconf.Main (chainconf.Build conf)) "");
    [contradiction|]. simpl. split; reflexivity.
Qed.

Lemma C5_explicit_main_no_scan_witness :
  discoverMain (Example.good Example.withMain) Example.mars "/src/mars" [] =
    (("/src/mars/cmd/marsd", None), [mkEvent c_Config "" None]) /\
  scannedOf (calls (snd (discoverMain (Example.good Example.withMain)
                           Example.mars "/src/mars" []))) = [].
Proof.
  apply (@C5_explicit_main_no_scan (Example.good Example.withMain) Example.mars
           "/src/mars" [] Example.withMain).
  - reflexivity.
  - discriminate.
Defined.

(* ================================================================= *)
(** ** The build flags *)

Lemma preBuild_flags L W c h flags :
  fst (preBuild L W c h) = (flags, None) ->
  flags =
    [ FlagMod L; FlagModValueReadOnly L; FlagLdflags L;
      gocmd.Ldflags
        (chainconf.LDFlags (chainconf.Build (fst (replyConfig W h)))
         ++ injectedLdFlags L c
              (fst (reply W (h ++ [mkEvent c_Config "" None]) c_ID))) ].
Proof.
  unfold preBuild; unfold_run.
  destruct (replyConfig W h) as [conf [e|]]; simpl; [discriminate|].
  destruct (reply W _ c_ID) as [chainID [e|]]; simpl; [discriminate|].
  repeat split_reply; intros H; try discriminate.
  injection H as <-; reflexivity.
Qed.

(** C7.  The flags [preBuild] returns when it succeeds: the module-mode
    flag with its read-only value, then the linker flag with one token,
    which joins the linker flags of the configuration followed by the five
    injected settings, in this order: the title-cased name, the name with a [d], the
    tag, the commit hash, the chain identifier.  Two successful assemblies
    from the same configuration and chain identifier return the same
    flags. *)
Theorem C7_build_flags L W c h flags :
  fst (preBuild L W c h) = (flags, None) ->
  let conf := fst (replyConfig W h) in
  let chainID := fst (reply W (h ++ [mkEvent c_Config "" None]) c_ID) in
  flags =
    [ FlagMod L; FlagModValueReadOnly L; FlagLdflags L;
      gocmd.Ldflags
        (chainconf.LDFlags (chainconf.Build conf) ++
         [ ("-X github.com/cosmos/cosmos-sdk/version.Name="
              ++ Title L (Name (app c)))%string;
           ("-X github.com/cosmos/cosmos-sdk/version.AppName="
              ++ Name (app c) ++ "d")%string;
           ("-X github.com/cosmos/cosmos-sdk/version.Version="
              ++ tag (sourceVersion c))%string;
           ("-X github.com/cosmos/cosmos-sdk/version.Commit="
              ++ hash (sourceVersion c))%string;
           ("-X " ++ ImportPath (app c) ++ "/cmd/" ++ D L (app c)
              ++ "/cmd.ChainID=" ++ chainID)%string ]) ] /\
  (forall W' h' flags',
     fst (preBuild L W' c h') = (flags', None) ->
     fst (replyConfig W' h') = conf ->
     fst (reply W' (h' ++ [mkEvent c_Config "" None]) c_ID) = chainID ->
     flags' = flags).
Proof.
  intros H conf chainID. split.
  - apply preBuild_flags in H. exact H.
  - intros W' h' flags' H' Hc Hi.
    apply preBuild_flags in H, H'. rewrite Hc, Hi in H'.
    rewrite H, H'; reflexivity.
Qed.

Lemma C7_build_flags_witness :
  fst (preBuild Example.lib (Example.good Example.withMain) Example.mars [])
  = ([ "-mod"; "readonly"; "-ldflags";
       "-s -w -X github.com/cosmos/cosmos-sdk/version.Name=Mars -X github.com/cosmos/cosmos-sdk/version.AppName=marsd -X github.com/cosmos/cosmos-sdk/version.Version=v1 -X github.com/cosmos/cosmos-sdk/version.Commit=abc -X github.com/x/mars/cmd/marsd/cmd.ChainID=mars-1" ],
     None) /\
  fst (fst (preBuild Example.lib (Example.good Example.withMain) Example.mars []))
  = [ "-mod"; "readonly"; "-ldflags";
      gocmd.Ldflags
        [ "-s"; "-w";
          "-X github.com/cosmos/cosmos-sdk/version.Name=Mars";
          "-X github.com/cosmos/cosmos-sdk/version.AppName=marsd";
          "-X github.com/cosmos/cosmos-sdk/version.Version=v1";
          "-X github.com/cosmos/cosmos-sdk/version.Commit=abc";
          "-X github.com/x/mars/cmd/marsd/cmd.ChainID=mars-1" ] ] /\
  fst (fst (preBuild Example.lib
              (Example.failing Example.isCompile (ExitError 2)
                 (Example.good Example.withMain))
              Example.mars [mkEvent c_setup "" None]))
  = fst (fst (preBuild Example.lib (Example.good Example.withMain)
                Example.mars [])).
Proof.
  split; [reflexivity|]. split.
  - exact (proj1 (@C7_build_flags Example.lib (Example.good Example.withMain)
                    Example.mars [] _ eq_refl)).
  - exact (proj2 (@C7_build_flags Example.lib (Example.good Example.withMain)
                    Example.mars [] _ eq_refl)
             (Example.failing Example.isCompile (ExitError 2)
                (Example.good Example.withMain))
             [mkEvent c_setup "" None] _ eq_refl eq_refl eq_refl).
Defined.

(* ================================================================= *)
(** ** BuildRelease: what every run did *)

Lemma firstn_length_le {A} (l : list A) n m :
  n <= m -> m <= S n -> m <= List.length l -> n = List.length l -> firstn m l = l.
Proof.
  intros. replace m with (List.length l) by lia. apply firstn_all.
Qed.

(** The archives written and the compilations of a run, read off
    [BuildRelease_run]. *)
Lemma BuildRelease_observed L W c output prefix targets h :
  let r := BuildRelease L W c output prefix targets h in
  let targets' := defaultTargets L targets in
  let prefix' := defaultPrefix c prefix in
  let rp := releasePathOf c output in
  exists n m,
    n <= m /\ m <= S n /\ m <= List.length targets' /\
    written (snd r) = map (archivePath rp prefix') (firstn n targets') /\
    compiledOf (calls (snd r)) = map (envOf L) (firstn m targets') /\
    forallb parses (firstn m targets') = true /\
    (snd (fst r) = None ->
       n = List.length targets' /\ fst (fst r) = rp /\
       createdOf (calls (snd r)) = map (archivePath rp prefix') targets').
Proof.
  cbv zeta.
  destruct (BuildRelease_run L W c output prefix targets h)
    as (evsP & evsL & evsS & evsD & n & m & -> & (P1 & P2 & P3 & P4 & P5) & _
        & (L1 & L2 & Hnm & Hmn & Hm & L3 & L4 & L5) & (D1 & D2) & HS).
  destruct (cleanup_no_temp evsD D1) as [T1 T2].
  destruct (cleanup_observed _ D1) as (O1 & O2 & O3 & O4 & O5).
  exists n, m. autorewrite with obs.
  rewrite P2, P3, P4, L3, L4, T2, O1, O2.
  destruct HS as [(-> & HS1 & HS2) | (s & -> & HS1 & HS2 & HS3 & HS4)]; simpl;
    rewrite ?app_nil_r; repeat split; auto; try contradiction.
Qed.

(** C3.  The archives a run wrote are those of the first targets, one for
    each, at the join of the release directory with
    prefix_os_arch.tar.gz; a run that returns no error wrote the archive of
    every target.  For the token linux:amd64 and the prefix foo the archive
    is foo_linux_amd64.tar.gz. *)
Theorem C3_one_archive_per_target L W c output prefix targets h :
  let r := BuildRelease L W c output prefix targets h in
  let targets' := defaultTargets L targets in
  let prefix' := defaultPrefix c prefix in
  let rp := releasePathOf c output in
  (exists n, n <= List.length targets' /\
     written (snd r) = map (archivePath rp prefix') (firstn n targets')) /\
  (snd (fst r) = None ->
     fst (fst r) = rp /\
     forallb parses targets' = true /\
     written (snd r) = map (archivePath rp prefix') targets' /\
     createdOf (calls (snd r)) = map (archivePath rp prefix') targets') /\
  (forall releasePath,
     archivePath releasePath "foo" "linux:amd64" =
     filepath.Join releasePath "foo_linux_amd64.tar.gz").
Proof.
  cbv zeta.
  destruct (BuildRelease_observed L W c output prefix targets h)
    as (n & m & Hnm & Hmn & Hm & Hw & Hc & Hp & Hok).
  split; [exists n; split; [lia | exact Hw]|].
  split; [|intros; reflexivity].
  intros E. destruct (Hok E) as (Hn & Hr & Hcr).
  rewrite (firstn_length_le _ Hnm Hmn Hm Hn) in Hp.
  rewrite Hn, firstn_all in Hw. auto.
Qed.

Lemma C3_one_archive_per_target_witness :
  written (snd (BuildRelease Example.lib (Example.good chainconf.empty)
                  Example.mars "/out" "foo" ["linux:amd64"; "darwin:arm64"] []))
  = ["/out/foo_linux_amd64.tar.gz"; "/out/foo_darwin_arm64.tar.gz"].
Proof.
  exact (proj1 (proj2 (proj2 (proj1 (proj2
    (@C3_one_archive_per_target Example.lib (Example.good chainconf.empty)
       Example.mars "/out" "foo" ["linux:amd64"; "darwin:arm64"] []))
    eq_refl)))).
Defined.

(** C4.  An empty prefix stands for the name of the application, and an
    empty list of targets for the one token of the host's pair.  A run with
    no targets that returns no error compiled once, for the host's
    operating system and architecture, and wrote the one archive of that
    pair; a run with an empty prefix that returns no error wrote its
    archives under the name of the application. *)
Theorem C4_defaults L W c output prefix targets h :
  let r := BuildRelease L W c output prefix targets h in
  let rp := releasePathOf c output in
  (prefix = "" ->
     r = BuildRelease L W c output (Name (app c)) targets h /\
     (snd (fst r) = None ->
        written (snd r) =
        map (archivePath rp (Name (app c))) (defaultTargets L targets))) /\
  (targets = [] ->
     r = BuildRelease L W c output prefix
           [gocmd.BuildTarget (GOOS L) (GOARCH L)] h /\
     (snd (fst r) = None ->
        compiledOf (calls (snd r)) = [targetEnv L (GOOS L) (GOARCH L)] /\
        written (snd r) =
        [filepath.Join rp (tarName (defaultPrefix c prefix) (GOOS L) (GOARCH L))])).
Proof.
  cbv zeta.
  destruct (BuildRelease_observed L W c output prefix targets h)
    as (n & m & Hnm & Hmn & Hm & Hw & Hc & Hp & Hok).
  split.
  - intros ->. split.
    + unfold BuildRelease, defaultPrefix; simpl.
      destruct (Name (app c) =? "")%string; reflexivity.
    + intros E. destruct (Hok E) as (Hn & _ & _).
      rewrite Hn, firstn_all in Hw. exact Hw.
  - intros ->. split; [reflexivity|].
    intros E. destruct (Hok E) as (Hn & _ & _).
    rewrite (firstn_length_le _ Hnm Hmn Hm Hn) in Hp, Hc.
    rewrite Hn, firstn_all in Hw.
    unfold defaultTargets in *; simpl in *.
    rewrite andb_true_r in Hp.
    unfold envOf, archivePath in *.
    rewrite (ParseTarget_BuildTarget _ _ Hp) in Hc, Hw. auto.
Qed.

Lemma C4_defaults_witness :
  (written (snd (BuildRelease Example.lib (Example.good chainconf.empty)
                   Example.mars "/out" "" ["darwin:arm64"] []))
     = ["/out/mars_darwin_arm64.tar.gz"]) /\
  (compiledOf (calls (snd (BuildRelease Example.lib (Example.good chainconf.empty)
                             Example.mars "/out" "" [] [])))
     = [[("GOOS", "linux"); ("GOARCH", "amd64")]] /\
   written (snd (BuildRelease Example.lib (Example.good chainconf.empty)
                   Example.mars "/out" "" [] []))
     = ["/out/mars_linux_amd64.tar.gz"]).
Proof.
  split.
  - exact (proj2 (proj1 (@C4_defaults Example.lib (Example.good chainconf.empty)
                           Example.mars "/out" "" ["darwin:arm64"] []) eq_refl)
             eq_refl).
  - exact (proj2 (proj2 (@C4_defaults Example.lib (Example.good chainconf.empty)
                           Example.mars "/out" "" [] []) eq_refl) eq_refl).
Defined.

(** C2.  In every run the compiler ran only for targets whose token had
    parsed, in the order of the list; a list with a token that does not
    parse never gives a release path.  When the steps before the loop and
    the targets [pre] went through and the next token [t] does not parse,
    [BuildRelease] returns an empty path and the TargetParseError; after the
    calls for [pre] it makes only its deferred calls, which close the
    archive files and remove the temporary directories of [pre].  So the
    compiler ran for [pre] only, nothing was called for [t] or for the
    targets after it, and no call touches the archives written for [pre]. *)
Theorem C2_parse_before_compile L W c output prefix targets h :
  let r := BuildRelease L W c output prefix targets h in
  let targets' := defaultTargets L targets in
  let prefix' := defaultPrefix c prefix in
  (exists m, m <= List.length targets' /\
     compiledOf (calls (snd r)) = map (envOf L) (firstn m targets') /\
     forallb parses (firstn m targets') = true) /\
  (forall t, In t targets' -> parses t = false ->
     fst (fst r) = "" /\ snd (fst r) <> None) /\
  (forall pre t post buildFlags binary mainPath rp evs0 deferred evs1,
     targets' = pre ++ t :: post ->
     parses t = false ->
     prepareRelease L W c output h
       = ((buildFlags, binary, mainPath, rp, None), evs0) ->
     buildTargets L W binary mainPath buildFlags rp prefix' pre [] (h ++ evs0)
       = ((None, deferred), evs1) ->
     exists evsD,
       r = (("", Some TargetParseError), evs0 ++ evs1 ++ evsD) /\
       calls evsD = deferred /\
       forallb isCleanup deferred = true /\
       removedOf deferred = rev (tempDirs evs1) /\
       written evs1 = map (archivePath rp prefix') pre /\
       compiledOf (calls (snd r)) = map (envOf L) pre).
Proof.
  cbv zeta. split; [|split].
  - destruct (BuildRelease_observed L W c output prefix targets h)
      as (n & m & Hnm & Hmn & Hm & Hw & Hc & Hp & Hok).
    exists m; auto.
  - intros t Hin Hparse.
    destruct (BuildRelease_run L W c output prefix targets h)
      as (evsP & evsL & evsS & evsD & n & m & _ & _ & _
          & (_ & _ & Hnm & Hmn & Hm & _ & _ & L5) & _ & HS).
    destruct HS as [(_ & H1 & H2) | (s & _ & _ & Hn & _)]; [auto|].
    rewrite (firstn_length_le _ Hnm Hmn Hm Hn) in L5.
    rewrite forallb_forall in L5. rewrite (L5 t Hin) in Hparse. discriminate.
  - intros pre t post buildFlags binary mainPath rp evs0 deferred evs1
           Ht Hparse Hprep Hloop.
    pose proof (prepareRelease_run L W c output h) as Hq; cbv zeta in Hq.
    rewrite Hprep in Hq; simpl in Hq.
    destruct Hq as (before & after & -> & (Q1 & Q2 & Q3 & Q4 & Q5 & Q6)
                    & A1 & A2 & A3 & A4 & A5 & _).
    pose proof (buildTargets_calls L W binary mainPath buildFlags rp
                  (defaultPrefix c prefix) pre [] (h ++ before ++ after)) as Hc.
    pose proof (buildTargets_ok L W binary mainPath buildFlags rp
                  (defaultPrefix c prefix) pre [] (h ++ before ++ after)) as Ho.
    cbv zeta in Hc, Ho. rewrite Hloop in Hc, Ho; simpl in Hc, Ho.
    destruct Hc as (_ & _ & _ & D1 & K1).
    destruct (Ho eq_refl) as (_ & C2 & _ & W2).
    rewrite app_nil_r in D1. specialize (K1 eq_refl).
    rewrite BuildRelease_unfold; cbv zeta. rewrite Hprep; simpl.
    rewrite Ht.
    rewrite (@buildTargets_stops L W binary mainPath buildFlags rp
               (defaultPrefix c prefix) pre t post [] (h ++ before ++ after)
               deferred evs1 Hloop Hparse).
    simpl. rewrite (parses_error _ Hparse).
    pose proof (runDeferred_calls W deferred ((h ++ before ++ after) ++ evs1))
      as Hd.
    destruct (runDeferred W deferred _) as [u evsD]; simpl in *.
    exists evsD. rewrite <- Hd in K1.
    destruct (cleanup_observed _ K1) as (O1 & _).
    autorewrite with obs. rewrite Q2, A3, C2, O1, Hd in *; simpl.
    rewrite app_nil_r. repeat split; auto.
Qed.

Lemma C2_parse_before_compile_witness :
  exists evsD,
    fst (BuildRelease Example.lib (Example.good chainconf.empty) Example.mars
           "/out" "foo" ["linux:amd64"; "darwin"; "windows:amd64"] [])
      = ("", Some TargetParseError) /\
    calls evsD = [File_Close "/out/foo_linux_amd64.tar.gz";
                  os_RemoveAll "/tmp/biiiiiiiiiii"] /\
    compiledOf (calls (snd (BuildRelease Example.lib (Example.good chainconf.empty)
                              Example.mars "/out" "foo"
                              ["linux:amd64"; "darwin"; "windows:amd64"] [])))
      = [[("GOOS", "linux"); ("GOARCH", "amd64")]].
Proof.
  pose (W := Example.good chainconf.empty).
  pose (p := prepareRelease Example.lib W Example.mars "/out" []).
  pose (l := buildTargets Example.lib W "marsd" "/src/mars/cmd/marsd"
               (fst (fst (fst (fst (fst p))))) "/out" "foo" ["linux:amd64"] []
               ([] ++ snd p)).
  destruct (proj2 (proj2 (@C2_parse_before_compile Example.lib W Example.mars
                            "/out" "foo"
                            ["linux:amd64"; "darwin"; "windows:amd64"] []))
              ["linux:amd64"] "darwin" ["windows:amd64"]
              (fst (fst (fst (fst (fst p))))) "marsd" "/src/mars/cmd/marsd"
              "/out" (snd p) (snd (fst l)) (snd l))
    as (evsD & H1 & H2 & _ & _ & _ & H3);
    try (vm_compute; reflexivity).
  unfold W in H1, H3. exists evsD.
  split; [rewrite H1; reflexivity|].
  split; [rewrite H2 | rewrite H3]; vm_compute; reflexivity.
Defined.

(* ================================================================= *)
(** ** The release directory and the temporary directories *)

(** C8.  The calls of a run that remove or make a directory are: the calls
    on the release directory, then one removal for each temporary directory
    the run created.  With an explicit [output] the release directory is
    made with [os.MkdirAll] and never removed.  With an empty [output] it
    is the [release] directory under the source root, and it is removed
    before it is made. *)
Theorem C8_release_dir_reset L W c output prefix targets h :
  let r := BuildRelease L W c output prefix targets h in
  let d := filepath.Join (Path (app c)) releaseDir in
  let cleanup := map os_RemoveAll (rev (tempDirs (snd r))) in
  exists setup,
    dirOpsOf (calls (snd r)) = setup ++ cleanup /\
    (output <> "" -> setup = [] \/ setup = [os_MkdirAll output 493]) /\
    (output = "" ->
       setup = [] \/ setup = [os_RemoveAll d] \/
       setup = [os_RemoveAll d; os_MkdirAll d 493]) /\
    (snd (fst r) = None ->
       setup = (if (output =? "")%string then [os_RemoveAll d] else [])
               ++ [os_MkdirAll (releasePathOf c output) 493]).
Proof.
  cbv zeta.
  destruct (BuildRelease_run L W c output prefix targets h)
    as (evsP & evsL & evsS & evsD & n & m & -> & (P1 & P2 & P3 & P4 & P5) & HP
        & (L1 & L2 & Hnm & Hmn & Hm & L3 & L4 & L5) & (D1 & D2) & HS).
  destruct (cleanup_no_temp evsD D1) as [T1 T2].
  destruct (cleanup_observed _ D1) as (O1 & O2 & O3 & O4 & O5).
  exists (dirOpsOf (calls evsP)).
  assert (HSd : dirOpsOf (calls evsS) = [] /\ tempDirs evsS = []).
  { destruct HS as [(-> & _) | (s & -> & _)]; split; reflexivity. }
  destruct HSd as [S1 S2].
  autorewrite with obs.
  rewrite L1, S1, P1, S2, T1, (dirOpsOf_removals _ O4), D2; simpl.
  rewrite app_nil_r. split; [reflexivity|].
  unfold releasePathOf in *. revert HP HS.
  destruct (String.eqb_spec output "") as [E|E]; simpl; intros HP HS.
  - split; [intros; contradiction|]. split.
    + intros _. destruct HP as [H | (_ & _ & _ & [H | [_ H]])]; rewrite H; auto.
    + intros Hok.
      destruct HS as [(_ & _ & H) | (s & _ & _ & _ & H & _)];
        [contradiction | exact H].
  - split; [|split; [intros; contradiction|]].
    + intros _. destruct HP as [H | (_ & _ & _ & [H | [H' H]])];
        try contradiction; rewrite H; auto.
    + intros Hok.
      destruct HS as [(_ & _ & H) | (s & _ & _ & _ & H & _)];
        [contradiction | exact H].
Qed.

Lemma C8_release_dir_reset_witness :
  (exists setup,
     dirOpsOf (calls (snd (BuildRelease Example.lib (Example.good chainconf.empty)
                             Example.mars "/out" "foo" ["linux:amd64"] [])))
       = setup ++ [os_RemoveAll "/tmp/biiiiiiiiiii"] /\
     setup = [os_MkdirAll "/out" 493]) /\
  (exists setup,
     dirOpsOf (calls (snd (BuildRelease Example.lib (Example.good chainconf.empty)
                             Example.mars "" "foo" ["linux:amd64"] [])))
       = setup ++ [os_RemoveAll "/tmp/biiiiiiiiiiii"] /\
     setup = [os_RemoveAll "/src/mars/release";
              os_MkdirAll "/src/mars/release" 493]).
Proof.
  split.
  - destruct (@C8_release_dir_reset Example.lib (Example.good chainconf.empty)
                Example.mars "/out" "foo" ["linux:amd64"] [])
      as (setup & H1 & H2 & _ & H4).
    exists setup. split; [exact H1 | exact (H4 eq_refl)].
  - destruct (@C8_release_dir_reset Example.lib (Example.good chainconf.empty)
                Example.mars "" "foo" ["linux:amd64"] [])
      as (setup & H1 & _ & _ & H4).
    exists setup. split; [exact H1 | exact (H4 eq_refl)].
Defined.

(** Temporary directories that are live after some events were live before
    or were created by them. *)
Lemma liveTemps_incl (evs : list event) : forall live d,
  In d (liveTemps evs live) -> In d live \/ In d (tempDirs evs).
Proof.
  induction evs as [|e evs IH]; intros live d; simpl; [auto|].
  unfold tempDirs in *; simpl.
  destruct (ev_call e); destruct (ev_err e); simpl;
    intros H; apply IH in H; destruct H as [H | H]; auto;
    try (apply filter_In in H; destruct H; auto; fail).
  simpl in H; destruct H as [<- | H]; auto.
Qed.

(* ================================================================= *)
(** ** More on the observations *)

Lemma buildPathsOf_app (a b : list call) :
  buildPathsOf (a ++ b) = buildPathsOf a ++ buildPathsOf b.
Proof. apply flat_map_app. Qed.

Lemma depsOf_app (a b : list call) : depsOf (a ++ b) = depsOf a ++ depsOf b.
Proof. apply filter_app. Qed.

Lemma generatedOf_app (a b : list call) :
  generatedOf (a ++ b) = generatedOf a ++ generatedOf b.
Proof. apply filter_app. Qed.

Lemma tarredOf_app (a b : list call) :
  tarredOf (a ++ b) = tarredOf a ++ tarredOf b.
Proof. apply flat_map_app. Qed.

Lemma openedOf_app (a b : list event) :
  openedOf (a ++ b) = openedOf a ++ openedOf b.
Proof. apply flat_map_app. Qed.

Lemma closedOf_app (a b : list call) :
  closedOf (a ++ b) = closedOf a ++ closedOf b.
Proof. apply flat_map_app. Qed.

Create Rewrite HintDb obs2.
#[export] Hint Rewrite calls_app buildPathsOf_app depsOf_app generatedOf_app
  tarredOf_app openedOf_app closedOf_app failedCalls_app scannedOf_app
  tempDirs_app removedOf_app map_app app_nil_r app_nil_l : obs2.

Lemma lastEvent_app (a b : list event) :
  b <> [] -> lastEvent (a ++ b) = lastEvent b.
Proof.
  intros Hb. unfold lastEvent.
  destruct (exists_last Hb) as (b' & x & ->).
  rewrite app_assoc, !last_last; reflexivity.
Qed.

Lemma failedLast_app (a b : list event) (e : error) :
  failedLast b e -> failedLast (a ++ b) e.
Proof.
  intros [Hb H]. split.
  - intros E. apply app_eq_nil in E. destruct E; contradiction.
  - rewrite (lastEvent_app a Hb). exact H.
Qed.

(** What cleanup calls are not. *)
Lemma cleanup_observed2 (evs : list event) :
  forallb isCleanup (calls evs) = true ->
  buildPathsOf (calls evs) = [] /\ depsOf (calls evs) = [] /\
  generatedOf (calls evs) = [] /\ tarredOf (calls evs) = [] /\
  openedOf evs = [] /\ scannedOf (calls evs) = [].
Proof.
  induction evs as [|e evs IH]; simpl; [repeat split|].
  intros H; apply andb_true_iff in H; destruct H as [He H].
  destruct (IH H) as (A & B & C & D' & E & F).
  unfold openedOf in *; simpl.
  destruct (ev_call e); simpl in *; try discriminate; rewrite ?E; repeat split; auto.
Qed.

(* ================================================================= *)
(** ** preBuild and discoverMain, call by call *)

Ltac sentinel_reply :=
  match goal with
  | E : errors.eqMultipleMain _ = true |- _ =>
      apply eqMultipleMain_true in E; injection E as ->
  end.

(** X5.  [preBuild] runs [go mod tidy] and then [go mod verify], each at
    most once, on the source root; [go mod verify] runs only after
    [go mod tidy] returned no error.  When [preBuild] returns an error it
    returns no flags, and the error is that of the last call it made, a
    call whose error is looked at; when it returns no error both steps ran
    and the only calls that may have failed are the progress lines. *)
Theorem X5_preBuild_dependency_steps L W c h :
  let p := preBuild L W c h in
  let path := Path (app c) in
  (depsOf (calls (snd p)) = [] \/
   depsOf (calls (snd p)) = [gocmd_ModTidy path] \/
   depsOf (calls (snd p)) = [gocmd_ModTidy path; gocmd_ModVerify path]) /\
  (forall e, snd (fst p) = Some e ->
     fst (fst p) = [] /\
     ev_err (lastEvent (snd p)) = Some e /\
     errorDropped (ev_call (lastEvent (snd p))) = false) /\
  (snd (fst p) = None ->
     depsOf (calls (snd p)) = [gocmd_ModTidy path; gocmd_ModVerify path] /\
     forallb errorDropped (map fst (failedCalls (snd p))) = true) /\
  (forall e, In (gocmd_ModTidy path, e) (failedCalls (snd p)) ->
     depsOf (calls (snd p)) = [gocmd_ModTidy path] /\ snd (fst p) = Some e).
Proof.
  unfold preBuild, lastEvent, failedCalls; unfold_run.
  repeat split_reply; (split; [auto|]); (split; [|split]);
    try (intros e' H; try discriminate; injection H as <-; auto; fail);
    try (intros H; try discriminate; auto; fail);
    try (intros e' H; simpl in H;
         repeat (destruct H as [H | H]; [try discriminate H|]);
         try contradiction; try (injection H as <-; auto); fail).
Qed.

Lemma X5_preBuild_dependency_steps_witness :
  (fst (fst (preBuild Example.lib Example2.verifyFails Example.mars [])) = [] /\
   ev_err (lastEvent (snd (preBuild Example.lib Example2.verifyFails
                             Example.mars [])))
     = Some (ErrorString "go.sum: checksum mismatch") /\
   errorDropped (ev_call (lastEvent (snd (preBuild Example.lib
                            Example2.verifyFails Example.mars [])))) = false) /\
  (depsOf (calls (snd (preBuild Example.lib Example.tidyExits Example.mars [])))
     = [gocmd_ModTidy "/src/mars"] /\
   snd (fst (preBuild Example.lib Example.tidyExits Example.mars []))
     = Some (ExitError 1)) /\
  (depsOf (calls (snd (preBuild Example.lib (Example.good chainconf.empty)
                         Example.mars [])))
     = [gocmd_ModTidy "/src/mars"; gocmd_ModVerify "/src/mars"] /\
   forallb errorDropped
     (map fst (failedCalls (snd (preBuild Example.lib
                                   (Example.good chainconf.empty)
                                   Example.mars [])))) = true).
Proof.
  split; [|split].
  - exact (proj1 (proj2 (@X5_preBuild_dependency_steps Example.lib
                           Example2.verifyFails Example.mars []))
             (ErrorString "go.sum: checksum mismatch") eq_refl).
  - apply (proj2 (proj2 (proj2 (@X5_preBuild_dependency_steps Example.lib
                                  Example.tidyExits Example.mars [])))
             (ExitError 1)).
    vm_compute. auto.
  - exact (proj1 (proj2 (proj2 (@X5_preBuild_dependency_steps Example.lib
                                  (Example.good chainconf.empty) Example.mars [])))
             eq_refl).
Defined.

(** X3.  [discoverMain] without a configuration does not scan: it returns
    the error of [c.Config] and an empty path.  With no entry point in the
    configuration, whatever the scan returns that is not the sentinel
    itself comes back as it is, path and error: the path of the one main
    package, the error of a tree with none, and also an error that only
    holds the sentinel in its chain, which gets no message. *)
Theorem X3_discoverMain_passes_scan_result W c path h :
  (forall conf e,
     replyConfig W h = (conf, Some e) ->
     discoverMain W c path h = (("", Some e), [mkEvent c_Config "" (Some e)])) /\
  (forall conf,
     replyConfig W h = (conf, None) ->
     chainconf.Main (chainconf.Build conf) = "" ->
     let s := reply W (h ++ [mkEvent c_Config "" None])
                (goanalysis_DiscoverOneMain path) in
     snd s <> Some ErrMultipleMainPackagesFound ->
     discoverMain W c path h =
       (s, [mkEvent c_Config "" None;
            mkEvent (goanalysis_DiscoverOneMain path) (fst s) (snd s)])).
Proof.
  split.
  - intros conf e Hc. unfold discoverMain; unfold_run. rewrite Hc; reflexivity.
  - intros conf Hc Hm s Hs. subst s. unfold discoverMain; unfold_run.
    rewrite Hc; simpl. rewrite Hm; simpl.
    destruct (reply W _ (goanalysis_DiscoverOneMain path)) as [p err]; simpl in *.
    destruct (errors.eqMultipleMain err) eqn:E; [|reflexivity].
    apply eqMultipleMain_true in E. contradiction.
Qed.

Lemma X3_discoverMain_passes_scan_result_witness :
  fst (discoverMain Example2.noConfig Example.mars "/src/mars" [])
    = ("", Some (ErrorString "config.yml: not found")) /\
  fst (discoverMain (Example.good chainconf.empty) Example.mars "/src/mars" [])
    = ("/src/mars/cmd/marsd", None) /\
  fst (discoverMain Example2.noMain Example.mars "/src/mars" [])
    = ("", Some (ErrorString "main package cannot be found")) /\
  fst (discoverMain Example2.wrappedMains Example.mars "/src/mars" [])
    = ("", Some (Wrap ErrMultipleMainPackagesFound "scanning /src/mars")).
Proof.
  split; [|split; [|split]].
  - rewrite (proj1 (@X3_discoverMain_passes_scan_result Example2.noConfig
                      Example.mars "/src/mars" [])
               chainconf.empty (ErrorString "config.yml: not found") eq_refl).
    reflexivity.
  - rewrite (proj2 (@X3_discoverMain_passes_scan_result
                      (Example.good chainconf.empty) Example.mars "/src/mars" [])
               chainconf.empty eq_refl eq_refl);
      [reflexivity | discriminate].
  - rewrite (proj2 (@X3_discoverMain_passes_scan_result Example2.noMain
                      Example.mars "/src/mars" [])
               chainconf.empty eq_refl eq_refl);
      [reflexivity | discriminate].
  - rewrite (proj2 (@X3_discoverMain_passes_scan_result Example2.wrappedMains
                      Example.mars "/src/mars" [])
               chainconf.empty eq_refl eq_refl);
      [reflexivity | discriminate].
Defined.

(* ================================================================= *)
(** ** Build, call by call *)

Lemma buildBody_quiet L W c output h :
  let evs := snd (buildBody L W c output h) in
  dirOpsOf (calls evs) = [] /\ tempDirs evs = [] /\
  createdOf (calls evs) = [] /\ written evs = [] /\
  tarredOf (calls evs) = [] /\ checksumOf (calls evs) = [] /\
  generatedOf (calls evs) = [c_generateAll].
Proof.
  unfold buildBody, preBuild, discoverMain; unfold_run.
  repeat split_reply; repeat split.
Qed.

Lemma buildBody_compile L W c output h :
  let b := buildBody L W c output h in
  (buildPathsOf (calls (snd b)) = [] /\ fst b <> None) \/
  (exists binary path token s,
     buildPathsOf (calls (snd b)) =
       [(output, binary, path,
         [FlagMod L; FlagModValueReadOnly L; FlagLdflags L; token], [])] /\
     lastEvent (snd b) =
       mkEvent (gocmd_BuildPath output binary path
                  [FlagMod L; FlagModValueReadOnly L; FlagLdflags L; token] [])
               s (fst b)).
Proof.
  unfold buildBody, preBuild, discoverMain, lastEvent; unfold_run.
  repeat split_reply;
    try (left; split; [reflexivity | discriminate]);
    right; do 4 eexists; split; reflexivity.
Qed.

(** X1.  [Build] leaves the directories alone: in no run does it remove or
    make a directory, create a temporary directory, open or write an
    archive, call the archiver or write a checksum. *)
Theorem X1_Build_touches_no_directory L W c output h :
  let evs := snd (Build L W c output h) in
  dirOpsOf (calls evs) = [] /\ tempDirs evs = [] /\
  createdOf (calls evs) = [] /\ written evs = [] /\
  tarredOf (calls evs) = [] /\ checksumOf (calls evs) = [].
Proof.
  cbv zeta. rewrite Build_unfold; cbv zeta.
  destruct (reply W h c_setup) as [s0 [e0|]]; simpl; [repeat split|].
  pose proof (buildBody_quiet L W c output (h ++ [mkEvent c_setup s0 None]))
    as Hq; cbv zeta in Hq.
  destruct (buildBody L W c output _) as [err evs]; simpl in *.
  destruct Hq as (Q1 & Q2 & Q3 & Q4 & Q5 & Q6 & _).
  assert (Hall : forall tl,
            dirOpsOf (calls tl) = [] -> tempDirs tl = [] ->
            createdOf (calls tl) = [] -> written tl = [] ->
            tarredOf (calls tl) = [] -> checksumOf (calls tl) = [] ->
            dirOpsOf (calls (mkEvent c_setup s0 None :: evs ++ tl)) = [] /\
            tempDirs (mkEvent c_setup s0 None :: evs ++ tl) = [] /\
            createdOf (calls (mkEvent c_setup s0 None :: evs ++ tl)) = [] /\
            written (mkEvent c_setup s0 None :: evs ++ tl) = [] /\
            tarredOf (calls (mkEvent c_setup s0 None :: evs ++ tl)) = [] /\
            checksumOf (calls (mkEvent c_setup s0 None :: evs ++ tl)) = []).
  { intros tl T1 T2 T3 T4 T5 T6.
    change (mkEvent c_setup s0 None :: evs ++ tl)
      with ([mkEvent c_setup s0 None] ++ evs ++ tl).
    autorewrite with obs obs2.
    rewrite Q1, Q2, Q3, Q4, Q5, Q6, T1, T2, T3, T4, T5, T6. repeat split. }
  destruct (reclassify err).
  - specialize (Hall [] eq_refl eq_refl eq_refl eq_refl eq_refl eq_refl).
    rewrite app_nil_r in Hall. exact Hall.
  - apply Hall; reflexivity.
Qed.

(** X2.  [Build] invokes the compiler at most once, and a [Build] that
    returns no error invoked it exactly once: into the [output] directory
    it was given, with the module-mode and linker flags, and with no
    environment of its own, so for the host.  Such a [Build] generated the
    code once, and the name it returns is what [c.Binary] returned in the
    last call of the run. *)
Theorem X2_Build_compiles_once L W c output h :
  let r := Build L W c output h in
  (buildPathsOf (calls (snd r)) = [] \/
   exists binary path token,
     buildPathsOf (calls (snd r)) =
       [(output, binary, path,
         [FlagMod L; FlagModValueReadOnly L; FlagLdflags L; token], [])]) /\
  (snd (fst r) = None ->
     (exists binary path token,
        buildPathsOf (calls (snd r)) =
          [(output, binary, path,
            [FlagMod L; FlagModValueReadOnly L; FlagLdflags L; token], [])]) /\
     generatedOf (calls (snd r)) = [c_generateAll] /\
     ev_call (lastEvent (snd r)) = c_Binary /\
     ev_ret (lastEvent (snd r)) = fst (fst r)).
Proof.
  cbv zeta. rewrite Build_unfold; cbv zeta.
  destruct (reply W h c_setup) as [s0 [e0|]]; simpl;
    [split; [left; reflexivity | discriminate]|].
  pose proof (buildBody_quiet L W c output (h ++ [mkEvent c_setup s0 None]))
    as Hq; cbv zeta in Hq.
  pose proof (buildBody_compile L W c output (h ++ [mkEvent c_setup s0 None]))
    as Hc; cbv zeta in Hc.
  destruct (buildBody L W c output _) as [err evs]; simpl in *.
  destruct Hq as (_ & _ & _ & _ & _ & _ & QG).
  destruct err as [e|]; simpl.
  - destruct (errors.AsExitError e || errors.IsMultipleMain e); simpl;
      (split; [|discriminate]);
      (destruct Hc as [[Hc _] | (binary & path & token & s & Hc & _)];
       [left; exact Hc | right; exists binary, path, token; exact Hc]).
  - destruct Hc as [[_ Hc] | (binary & path & token & s & Hc & _)];
      [contradiction|].
    assert (HB : buildPathsOf
                   (calls (evs ++ [mkEvent c_Binary
                      (fst (reply W ((h ++ [mkEvent c_setup s0 None]) ++ evs)
                              c_Binary))
                      (snd (reply W ((h ++ [mkEvent c_setup s0 None]) ++ evs)
                              c_Binary))])) =
                 [(output, binary, path,
                   [FlagMod L; FlagModValueReadOnly L; FlagLdflags L; token],
                   [])]).
    { autorewrite with obs2. rewrite Hc; reflexivity. }
    split; [right; exists binary, path, token; exact HB|].
    intros Hok. split; [exists binary, path, token; exact HB|].
    split; [autorewrite with obs2; rewrite QG; reflexivity|].
    unfold lastEvent.
    change (mkEvent c_setup s0 None :: evs ++ ?x)
      with ((mkEvent c_setup s0 None :: evs) ++ x).
    rewrite last_last; simpl. split; reflexivity.
Qed.

Lemma X2_Build_compiles_once_witness :
  (exists binary path token,
     buildPathsOf (calls (snd (Build Example.lib (Example.good chainconf.empty)
                                 Example.mars "/out" []))) =
       [("/out", binary, path, ["-mod"; "readonly"; "-ldflags"; token], [])]) /\
  generatedOf (calls (snd (Build Example.lib (Example.good chainconf.empty)
                             Example.mars "/out" []))) = [c_generateAll] /\
  ev_call (lastEvent (snd (Build Example.lib (Example.good chainconf.empty)
                             Example.mars "/out" []))) = c_Binary /\
  ev_ret (lastEvent (snd (Build Example.lib (Example.good chainconf.empty)
                            Example.mars "/out" []))) = "marsd".
Proof.
  exact (proj2 (@X2_Build_compiles_once Example.lib
                  (Example.good chainconf.empty) Example.mars "/out" [])
           eq_refl).
Defined.

(* ================================================================= *)
(** ** BuildRelease, call by call *)

Lemma prepareRelease_steps L W c output h :
  let p := prepareRelease L W c output h in
  let path := Path (app c) in
  generatedOf (calls (snd p)) = [] /\ buildPathsOf (calls (snd p)) = [] /\
  tarredOf (calls (snd p)) = [] /\ openedOf (snd p) = [] /\
  closedOf (calls (snd p)) = [] /\
  (scannedOf (calls (snd p)) = [] \/ scannedOf (calls (snd p)) = [path]) /\
  (depsOf (calls (snd p)) = [] \/
   depsOf (calls (snd p)) = [gocmd_ModTidy path] \/
   depsOf (calls (snd p)) = [gocmd_ModTidy path; gocmd_ModVerify path]) /\
  (forall e, snd (fst p) = Some e -> failedLast (snd p) e) /\
  (snd (fst p) = None ->
     depsOf (calls (snd p)) = [gocmd_ModTidy path; gocmd_ModVerify path] /\
     forallb errorDropped (map fst (failedCalls (snd p))) = true).
Proof.
  cbv zeta.
  destruct (prepareRelease L W c output h) as [[[[[f b] m] rp] err] evs] eqn:H.
  simpl. revert H.
  unfold prepareRelease, preBuild, discoverMain, failedLast, lastEvent,
    failedCalls; cbv zeta.
  destruct (output =? "")%string; unfold_run;
    repeat split_reply; intros H; inversion H; subst; clear H;
    (split; [reflexivity|]); (split; [reflexivity|]); (split; [reflexivity|]);
    (split; [reflexivity|]); (split; [reflexivity|]); (split; [auto|]);
    (split; [auto|]);
    (split;
     [ intros e' H; try discriminate; injection H as <-;
       (split; [discriminate|]); try (left; reflexivity);
       sentinel_reply; right; split; reflexivity
     | intros H; try discriminate; split; reflexivity ]).
Qed.

Section Iteration2.

Variables (L : Lib) (W : World).
Variables (binary mainPath : string) (buildFlags : list string).
Variables (releasePath prefix : string).

Let iter := buildTarget L W binary mainPath buildFlags releasePath prefix.

Lemma buildTarget_steps t deferred h :
  let r := iter t deferred h in
  generatedOf (calls (snd r)) = [] /\ depsOf (calls (snd r)) = [] /\
  scannedOf (calls (snd r)) = [] /\
  closedOf (snd (fst r)) = rev (openedOf (snd r)) ++ closedOf deferred /\
  buildPathsOf (calls (snd r)) =
    map (releaseCompile L binary mainPath buildFlags)
        (combine (tempDirs (snd r)) [t]) /\
  (tarredOf (calls (snd r)) = [] \/ tarredOf (calls (snd r)) = tempDirs (snd r)) /\
  (tempDirs (snd r) = [] \/ exists out, tempDirs (snd r) = [out]).
Proof.
  unfold iter, buildTarget, gocmd.ParseTarget.
  destruct (strings.Split t ":"%char) as [|p1 [|p2 [|p3 ps]]] eqn:E; simpl;
    try (repeat split; auto; fail).
  unfold_run. repeat split_reply; repeat split; eauto;
    unfold releaseCompile, envOf, gocmd.ParseTarget; simpl; rewrite E;
    reflexivity.
Qed.

Lemma buildTarget_steps_ok t deferred h :
  let r := iter t deferred h in
  fst (fst r) = None ->
  (exists out, tempDirs (snd r) = [out]) /\
  tarredOf (calls (snd r)) = tempDirs (snd r) /\
  openedOf (snd r) = [archivePath releasePath prefix t] /\
  closedOf (calls (snd r)) = openedOf (snd r) /\
  forallb errorDropped (map fst (failedCalls (snd r))) = true.
Proof.
  unfold iter, buildTarget, archivePath, gocmd.ParseTarget, failedCalls.
  destruct (strings.Split t ":"%char) as [|p1 [|p2 [|p3 ps]]]; simpl;
    try discriminate.
  unfold_run. repeat split_reply; intros H; try discriminate;
    repeat split; eauto.
Qed.

Lemma buildTarget_steps_error t deferred h e :
  let r := iter t deferred h in
  fst (fst r) = Some e ->
  e = TargetParseError \/ failedLast (snd r) e.
Proof.
  unfold iter, buildTarget, gocmd.ParseTarget, failedLast, lastEvent.
  destruct (strings.Split t ":"%char) as [|p1 [|p2 [|p3 ps]]]; simpl;
    try (intros H; injection H as <-; left; reflexivity).
  unfold_run. repeat split_reply; intros H; try discriminate;
    injection H as <-; right; (split; [discriminate | left; reflexivity]).
Qed.

End Iteration2.

Section Loop2.

Variables (L : Lib) (W : World).
Variables (binary mainPath : string) (buildFlags : list string).
Variables (releasePath prefix : string).


(** The loop calls neither the code generator nor the dependency steps nor
    the scan; it compiles each target into the temporary directory created
    for it, archives the directories in that order, and defers one close
    for each file it opened. *)
Lemma buildTargets_steps targets : forall deferred h,
  let r := buildTargets L W binary mainPath buildFlags releasePath prefix
             targets deferred h in
  generatedOf (calls (snd r)) = [] /\ depsOf (calls (snd r)) = [] /\
  scannedOf (calls (snd r)) = [] /\
  closedOf (snd (fst r)) = rev (openedOf (snd r)) ++ closedOf deferred /\
  buildPathsOf (calls (snd r)) =
    map (releaseCompile L binary mainPath buildFlags)
        (combine (tempDirs (snd r)) targets) /\
  (exists k, tarredOf (calls (snd r)) = firstn k (tempDirs (snd r))) /\
  List.length (tempDirs (snd r)) <= List.length targets.
Proof.
  induction targets as [|t rest IH]; intros deferred h.
  - rewrite buildTargets_nil; simpl.
    repeat split; auto. exists 0; reflexivity.
  - rewrite buildTargets_cons.
    pose proof (buildTarget_steps L W binary mainPath buildFlags releasePath
                  prefix t deferred h) as Ht.
    pose proof (buildTarget_steps_ok L W binary mainPath buildFlags releasePath
                  prefix t deferred h) as Hok.
    cbv zeta in Ht, Hok.
    destruct (buildTarget _ _ _ _ _ _ _ _ _ _) as [[[e|] ds] evs]; simpl in *.
    + destruct Ht as (G & Dp & Sc & Cl & Bp & Tr & Td).
      repeat split; auto.
      * rewrite Bp. destruct Td as [-> | [out ->]]; reflexivity.
      * destruct Tr as [Tr | Tr]; rewrite Tr;
          [exists 0 | exists (List.length (tempDirs evs)); rewrite firstn_all];
          reflexivity.
      * destruct Td as [-> | [out ->]]; simpl; lia.
    + destruct Ht as (G & Dp & Sc & Cl & Bp & _ & _).
      destruct (Hok eq_refl) as ([out Td] & Tr & _).
      specialize (IH ds (h ++ evs)); cbv zeta in IH.
      destruct (buildTargets _ _ _ _ _ _ _ _ _ _) as [[err ds'] evs']; simpl in *.
      destruct IH as (G' & Dp' & Sc' & Cl' & Bp' & [k Tr'] & Td').
      autorewrite with obs2.
      rewrite G, G', Dp, Dp', Sc, Sc', Cl', Cl, Bp, Bp', Tr, Tr', Td.
      rewrite rev_app_distr, app_assoc. simpl.
      repeat split; auto; [exists (S k); reflexivity | lia].
Qed.

(** A loop that returns no error created one temporary directory for each
    target and archived each of them, opened the archive of each target,
    closed every file it opened, and no call whose error is looked at
    failed. *)
Lemma buildTargets_steps_ok targets : forall deferred h,
  let r := buildTargets L W binary mainPath buildFlags releasePath prefix
             targets deferred h in
  fst (fst r) = None ->
  List.length (tempDirs (snd r)) = List.length targets /\
  tarredOf (calls (snd r)) = tempDirs (snd r) /\
  openedOf (snd r) = map (archivePath releasePath prefix) targets /\
  closedOf (calls (snd r)) = openedOf (snd r) /\
  forallb errorDropped (map fst (failedCalls (snd r))) = true.
Proof.
  induction targets as [|t rest IH]; intros deferred h.
  - rewrite buildTargets_nil; simpl; auto.
  - rewrite buildTargets_cons.
    pose proof (buildTarget_steps_ok L W binary mainPath buildFlags releasePath
                  prefix t deferred h) as Hok.
    cbv zeta in Hok.
    destruct (buildTarget _ _ _ _ _ _ _ _ _ _) as [[[e|] ds] evs]; simpl in *; [discriminate|].
    destruct (Hok eq_refl) as ([out Td] & Tr & Op & Cl & Fd).
    specialize (IH ds (h ++ evs)); cbv zeta in IH.
    destruct (buildTargets _ _ _ _ _ _ _ _ _ _) as [[err ds'] evs']; simpl in *.
    intros ->. destruct (IH eq_refl) as (Td' & Tr' & Op' & Cl' & Fd').
    autorewrite with obs2.
    rewrite Tr, Tr', Cl, Cl', Op, Op', Td, forallb_app, Fd, Fd'; simpl.
    rewrite Td'. auto.
Qed.

(** The error the loop returns is the parse error or the error of the last
    call the loop made. *)
Lemma buildTargets_steps_error targets : forall deferred h e,
  let r := buildTargets L W binary mainPath buildFlags releasePath prefix
             targets deferred h in
  fst (fst r) = Some e ->
  e = TargetParseError \/ failedLast (snd r) e.
Proof.
  induction targets as [|t rest IH]; intros deferred h e.
  - rewrite buildTargets_nil; discriminate.
  - rewrite buildTargets_cons; cbv zeta.
    pose proof (@buildTarget_steps_error L W binary mainPath buildFlags
                  releasePath prefix t deferred h) as Ht.
    cbv zeta in Ht.
    destruct (buildTarget _ _ _ _ _ _ _ _ _ _) as [[[e'|] ds] evs]; simpl in *.
    + exact (Ht e).
    + intros H. destruct (IH ds (h ++ evs) e H) as [-> | Hl]; [left; reflexivity|].
      right. apply failedLast_app. exact Hl.
Qed.

End Loop2.

(** Every run of [BuildRelease], in its four parts, with what each part
    called beyond the directories and archives. *)
Lemma BuildRelease_steps L W c output prefix targets h :
  let r := BuildRelease L W c output prefix targets h in
  let targets' := defaultTargets L targets in
  let path := Path (app c) in
  exists evsP evsL evsS evsD binary mainPath flags,
    snd r = evsP ++ evsL ++ evsS ++ evsD /\
    (generatedOf (calls evsP) = [] /\ buildPathsOf (calls evsP) = [] /\
     tarredOf (calls evsP) = [] /\ openedOf evsP = [] /\
     closedOf (calls evsP) = [] /\ tempDirs evsP = [] /\
     (scannedOf (calls evsP) = [] \/ scannedOf (calls evsP) = [path]) /\
     (depsOf (calls evsP) = [] \/
      depsOf (calls evsP) = [gocmd_ModTidy path] \/
      depsOf (calls evsP) = [gocmd_ModTidy path; gocmd_ModVerify path])) /\
    (generatedOf (calls evsL) = [] /\ depsOf (calls evsL) = [] /\
     scannedOf (calls evsL) = [] /\
     buildPathsOf (calls evsL) =
       map (releaseCompile L binary mainPath flags)
           (combine (tempDirs evsL) targets') /\
     (exists k, tarredOf (calls evsL) = firstn k (tempDirs evsL)) /\
     List.length (tempDirs evsL) <= List.length targets') /\
    (evsS = [] \/
     exists d p s, evsS = [mkEvent (checksum_Sum d p) s (snd (fst r))]) /\
    (forallb isCleanup (calls evsD) = true /\
     closedOf (calls evsD) = rev (openedOf evsL)) /\
    (forall e, snd (fst r) = Some e ->
       e = TargetParseError \/ failedLast (evsP ++ evsL ++ evsS) e) /\
    (snd (fst r) = None ->
       forallb errorDropped
         (map fst (failedCalls (evsP ++ evsL ++ evsS))) = true /\
       List.length (tempDirs evsL) = List.length targets' /\
       tarredOf (calls evsL) = tempDirs evsL /\
       closedOf (calls evsL) = openedOf evsL /\
       depsOf (calls evsP) = [gocmd_ModTidy path; gocmd_ModVerify path]).
Proof.
  cbv zeta. rewrite BuildRelease_unfold; cbv zeta.
  pose proof (prepareRelease_run L W c output h) as Hp; cbv zeta in Hp.
  pose proof (prepareRelease_steps L W c output h) as Hs; cbv zeta in Hs.
  destruct (prepareRelease L W c output h) as [[[[[f b] mp] rp] err0] evs0];
    simpl in *.
  destruct Hp as (before & after & Hba & (_ & _ & _ & _ & Q5 & _)
                  & A1 & _).
  assert (TP : tempDirs evs0 = []).
  { rewrite Hba. autorewrite with obs2. rewrite Q5, A1; reflexivity. }
  clear before after Hba Q5 A1.
  destruct Hs as (G0 & B0 & T0 & O0 & C0 & S0 & D0 & E0 & K0).
  destruct err0 as [e0|]; simpl.
  - (* a step before the loop failed *)
    exists evs0, [], [], [], b, mp, f; simpl. rewrite !app_nil_r.
    repeat split; auto; try discriminate;
      try (exists 0; reflexivity); try lia.
  - destruct (K0 eq_refl) as [D1 F0]. clear E0 K0.
    pose proof (buildTargets_steps L W b mp f rp (defaultPrefix c prefix)
                  (defaultTargets L targets) [] (h ++ evs0)) as Hl.
    pose proof (buildTargets_steps_ok L W b mp f rp (defaultPrefix c prefix)
                  (defaultTargets L targets) [] (h ++ evs0)) as Hok.
    pose proof (@buildTargets_steps_error L W b mp f rp (defaultPrefix c prefix)
                  (defaultTargets L targets) [] (h ++ evs0)) as Her.
    pose proof (buildTargets_calls L W b mp f rp (defaultPrefix c prefix)
                  (defaultTargets L targets) [] (h ++ evs0)) as Hc.
    cbv zeta in Hl, Hok, Her, Hc.
    destruct (buildTargets _ _ _ _ _ _ _ _ _ _) as [[err ds] evs1]; simpl in *.
    destruct Hl as (G1 & Dp1 & S1 & Cl1 & B1 & T1 & Ln1).
    destruct Hc as (_ & _ & _ & _ & K1). specialize (K1 eq_refl).
    rewrite app_nil_r in Cl1.
    destruct err as [e|]; simpl.
    + pose proof (runDeferred_calls W ds ((h ++ evs0) ++ evs1)) as Hd.
      destruct (runDeferred W ds _) as [u evsD]; simpl in *.
      exists evs0, evs1, [], evsD, b, mp, f; simpl.
      rewrite Hd, !app_nil_r.
      repeat split; auto; try discriminate.
      intros e' H; injection H as <-.
      destruct (Her e eq_refl) as [-> | Hl]; [left; reflexivity|].
      right. apply failedLast_app. exact Hl.
    + destruct (Hok eq_refl) as (Ln2 & T2 & O2 & C2 & F2).
      match goal with
      | |- context [runDeferred W ds ?hh] =>
          pose proof (runDeferred_calls W ds hh) as Hd;
          destruct (runDeferred W ds hh) as [u evsD]; simpl in *
      end.
      match goal with
      | |- context [mkEvent ?cc ?s ?ee :: evsD] =>
          exists evs0, evs1, [mkEvent cc s ee], evsD, b, mp, f
      end; simpl.
      rewrite Hd.
      repeat split; auto.
      * right; do 3 eexists; reflexivity.
      * intros e H. right. rewrite app_assoc. apply failedLast_app.
        split; [discriminate | left; exact H].
      * rewrite app_assoc. autorewrite with obs2.
        rewrite !forallb_app, F0, F2.
        unfold failedCalls; simpl.
        match goal with Hn : snd _ = None |- _ => rewrite Hn end; reflexivity.
Qed.

(** X6.  [BuildRelease] prepares once, whatever the number of targets: in
    every run [go mod tidy], [go mod verify] and the scan for the entry
    point are each called at most once, in this order for the two
    dependency steps, and a run that returns no error ran both.
    [BuildRelease] never calls [c.generateAll]. *)
Theorem X6_BuildRelease_prepares_once L W c output prefix targets h :
  let r := BuildRelease L W c output prefix targets h in
  let path := Path (app c) in
  generatedOf (calls (snd r)) = [] /\
  (depsOf (calls (snd r)) = [] \/
   depsOf (calls (snd r)) = [gocmd_ModTidy path] \/
   depsOf (calls (snd r)) = [gocmd_ModTidy path; gocmd_ModVerify path]) /\
  (scannedOf (calls (snd r)) = [] \/ scannedOf (calls (snd r)) = [path]) /\
  (snd (fst r) = None ->
     depsOf (calls (snd r)) = [gocmd_ModTidy path; gocmd_ModVerify path]).
Proof.
  cbv zeta.
  destruct (BuildRelease_steps L W c output prefix targets h)
    as (evsP & evsL & evsS & evsD & binary & mainPath & flags & -> &
        (G0 & _ & _ & _ & _ & _ & S0 & D0) & (G1 & D1 & S1 & _) & HS &
        (K & _) & _ & Hok).
  destruct (cleanup_observed2 evsD K) as (_ & D3 & G3 & _ & _ & S3).
  assert (HS' : generatedOf (calls evsS) = [] /\ depsOf (calls evsS) = [] /\
                scannedOf (calls evsS) = []).
  { destruct HS as [-> | (d & p & s & ->)]; repeat split. }
  destruct HS' as (G2 & D2 & S2).
  autorewrite with obs2.
  rewrite G0, G1, G2, G3, D1, D2, D3, S1, S2, S3; simpl.
  rewrite !app_nil_r. repeat split; auto.
  intros H. apply (Hok H).
Qed.

Lemma X6_BuildRelease_prepares_once_witness :
  depsOf (calls (snd (BuildRelease Example.lib (Example.good chainconf.empty)
                        Example.mars "/out" "foo"
                        ["linux:amd64"; "darwin:arm64"; "windows:amd64"] [])))
  = [gocmd_ModTidy "/src/mars"; gocmd_ModVerify "/src/mars"].
Proof.
  exact (proj2 (proj2 (proj2 (@X6_BuildRelease_prepares_once Example.lib
                  (Example.good chainconf.empty) Example.mars "/out" "foo"
                  ["linux:amd64"; "darwin:arm64"; "windows:amd64"] [])))
           eq_refl).
Defined.

(** X7.  [BuildRelease] compiles every target with the same binary name,
    entry point and flags, each into the temporary directory that
    [os.MkdirTemp] created for that target, with the operating system and
    architecture of the target in the environment.  The
    archiver reads these directories in the same order.  A run that returns
    no error created one temporary directory for each target and archived
    each of them. *)
Theorem X7_BuildRelease_compiles_into_temp_dirs L W c output prefix targets h :
  let r := BuildRelease L W c output prefix targets h in
  let targets' := defaultTargets L targets in
  exists binary mainPath flags,
    buildPathsOf (calls (snd r)) =
      map (releaseCompile L binary mainPath flags)
          (combine (tempDirs (snd r)) targets') /\
    (exists k, tarredOf (calls (snd r)) = firstn k (tempDirs (snd r))) /\
    List.length (tempDirs (snd r)) <= List.length targets' /\
    (snd (fst r) = None ->
       List.length (tempDirs (snd r)) = List.length targets' /\
       tarredOf (calls (snd r)) = tempDirs (snd r)).
Proof.
  cbv zeta.
  destruct (BuildRelease_steps L W c output prefix targets h)
    as (evsP & evsL & evsS & evsD & binary & mainPath & flags & -> &
        (_ & B0 & T0 & _ & _ & TP & _) & (_ & _ & _ & B1 & [k T1] & Ln) & HS &
        (K & _) & _ & Hok).
  destruct (cleanup_observed2 evsD K) as (B3 & _ & _ & T3 & _).
  destruct (cleanup_no_temp evsD K) as (TD & _).
  assert (HS' : buildPathsOf (calls evsS) = [] /\ tarredOf (calls evsS) = [] /\
                tempDirs evsS = []).
  { destruct HS as [-> | (d & p & s & ->)]; repeat split. }
  destruct HS' as (B2 & T2 & TS).
  exists binary, mainPath, flags.
  autorewrite with obs2.
  rewrite B0, B1, B2, B3, T0, T2, T3, TP, TS, TD; simpl. rewrite !app_nil_r.
  split; [reflexivity|]. split; [exists k; exact T1|]. split; [exact Ln|].
  intros H. destruct (Hok H) as (_ & L2 & T4 & _). auto.
Qed.

Lemma X7_BuildRelease_compiles_into_temp_dirs_witness :
  map (fun b => fst (fst (fst (fst b))))
      (buildPathsOf (calls (snd (BuildRelease Example.lib
                                   (Example.good chainconf.empty) Example.mars
                                   "/out" "foo"
                                   ["linux:amd64"; "darwin:arm64"] []))))
  = tempDirs (snd (BuildRelease Example.lib (Example.good chainconf.empty)
                     Example.mars "/out" "foo"
                     ["linux:amd64"; "darwin:arm64"] [])) /\
  tarredOf (calls (snd (BuildRelease Example.lib (Example.good chainconf.empty)
                          Example.mars "/out" "foo"
                          ["linux:amd64"; "darwin:arm64"] [])))
  = ["/tmp/biiiiiiiiiii"; "/tmp/biiiiiiiiiiiiiiiii"].
Proof.
  destruct (@X7_BuildRelease_compiles_into_temp_dirs Example.lib
              (Example.good chainconf.empty) Example.mars "/out" "foo"
              ["linux:amd64"; "darwin:arm64"] [])
    as (binary & mainPath & flags & _ & _ & _ & H).
  destruct (H eq_refl) as [_ ->]. split; reflexivity.
Defined.

(** X9.  [BuildRelease] hands errors on as they come: the error it returns
    is the error one of its calls returned, or the error of a token that
    does not parse, or the multiple-main sentinel under the message of
    [discoverMain].  It returns a [CannotBuildAppError] only when one of
    its calls returned that very error. *)
Theorem X9_BuildRelease_keeps_errors L W c output prefix targets h e :
  snd (fst (BuildRelease L W c output prefix targets h)) = Some e ->
  cameFrom (snd (BuildRelease L W c output prefix targets h)) e /\
  (isCannotBuildApp e = true ->
   In e (map snd (failedCalls
                    (snd (BuildRelease L W c output prefix targets h))))).
Proof.
  intros He. pose proof (BuildRelease_origin _ _ _ _ _ _ _ He) as Ho.
  split; [exact Ho|].
  destruct Ho as [H | [-> | ->]]; [auto | discriminate | discriminate].
Qed.

Lemma X9_BuildRelease_keeps_errors_witness :
  cameFrom (snd (BuildRelease Example.lib Example.manyMains Example.mars
                   "/out" "foo" ["linux:amd64"] []))
    (Wrap ErrMultipleMainPackagesFound specifyMain) /\
  cameFrom (snd (BuildRelease Example.lib Example.compilerExits Example.mars
                   "/out" "foo" ["linux:amd64"] []))
    (ExitError 2).
Proof.
  split.
  - exact (proj1 (@X9_BuildRelease_keeps_errors Example.lib Example.manyMains
                    Example.mars "/out" "foo" ["linux:amd64"] []
                    (Wrap ErrMultipleMainPackagesFound specifyMain) eq_refl)).
  - exact (proj1 (@X9_BuildRelease_keeps_errors Example.lib
                    Example.compilerExits Example.mars "/out" "foo"
                    ["linux:amd64"] [] (ExitError 2) eq_refl)).
Defined.

(** X10.  [BuildRelease] stops at the first failure it looks at.  A run is
    its calls up to the return, then the deferred calls.  When it returns
    an error that is not the parse error, that error is the error of the
    last call before the deferred ones.  When it returns no error, the only
    calls before the deferred ones that failed are progress lines and file
    closes, whose errors the code drops. *)
Theorem X10_BuildRelease_fail_fast L W c output prefix targets h :
  let r := BuildRelease L W c output prefix targets h in
  exists main after,
    snd r = main ++ after /\
    forallb isCleanup (calls after) = true /\
    (forall e, snd (fst r) = Some e ->
       e = TargetParseError \/ failedLast main e) /\
    (snd (fst r) = None ->
       forallb errorDropped (map fst (failedCalls main)) = true).
Proof.
  cbv zeta.
  destruct (BuildRelease_steps L W c output prefix targets h)
    as (evsP & evsL & evsS & evsD & binary & mainPath & flags & -> &
        _ & _ & _ & (K & _) & Herr & Hok).
  exists (evsP ++ evsL ++ evsS), evsD.
  split; [rewrite <- !app_assoc; reflexivity|].
  split; [exact K|]. split; [exact Herr|].
  intros H. apply (Hok H).
Qed.

Lemma X10_BuildRelease_fail_fast_witness :
  (exists main after,
     snd (BuildRelease Example.lib Example2.tarFails Example.mars "/out" "foo"
            ["linux:amd64"; "darwin:arm64"] []) = main ++ after /\
     forallb isCleanup (calls after) = true /\
     failedLast main (ErrorString "tar: cannot read")) /\
  (exists main after,
     snd (BuildRelease Example.lib Example2.cleanupFails Example.mars "/out"
            "foo" ["linux:amd64"] []) = main ++ after /\
     forallb isCleanup (calls after) = true /\
     forallb errorDropped (map fst (failedCalls main)) = true).
Proof.
  split.
  - destruct (@X10_BuildRelease_fail_fast Example.lib Example2.tarFails
                Example.mars "/out" "foo" ["linux:amd64"; "darwin:arm64"] [])
      as (main & after & H1 & H2 & H3 & _).
    destruct (H3 (ErrorString "tar: cannot read") eq_refl) as [H | H];
      [discriminate|].
    exists main, after. auto.
  - destruct (@X10_BuildRelease_fail_fast Example.lib Example2.cleanupFails
                Example.mars "/out" "foo" ["linux:amd64"] [])
      as (main & after & H1 & H2 & _ & H4).
    exists main, after. auto.
Defined.

Lemma buildBody_fail_fast L W c output h :
  let b := buildBody L W c output h in
  snd b <> [] /\
  (forall e, fst b = Some e ->
     errorDropped (ev_call (lastEvent (snd b))) = false /\
     (ev_err (lastEvent (snd b)) = Some e \/
      ev_err (lastEvent (snd b)) = Some ErrMultipleMainPackagesFound /\
      e = Wrap ErrMultipleMainPackagesFound specifyMain)) /\
  (fst b = None ->
     forallb errorDropped (map fst (failedCalls (snd b))) = true).
Proof.
  cbv zeta.
  destruct (buildBody L W c output h) as [err evs] eqn:H. simpl. revert H.
  unfold buildBody, preBuild, discoverMain, lastEvent, failedCalls; unfold_run.
  repeat split_reply; intros H; inversion H; subst; clear H;
    (split; [discriminate|]);
    (split;
     [ intros e' H; try discriminate; injection H as <-;
       (split; [reflexivity|]); try (left; reflexivity);
       sentinel_reply; right; split; reflexivity
     | intros H; try discriminate; reflexivity ]).
Qed.

(** X11.  [Build] stops at the first failure it looks at.  When it returns
    an error, the last call of the run is the one that failed, a call
    whose error is looked at, and the error returned is the error of that
    call, as it is or in a [CannotBuildAppError], the multiple-main
    sentinel of the scan being put under the message of [discoverMain]
    first.  When it returns no error, the only calls that failed are
    progress lines. *)
Theorem X11_Build_fail_fast L W c output h :
  let r := Build L W c output h in
  (forall e, snd (fst r) = Some e ->
     errorDropped (ev_call (lastEvent (snd r))) = false /\
     exists cause,
       ev_err (lastEvent (snd r)) = Some cause /\
       (e = cause \/ e = CannotBuildAppError cause \/
        (cause = ErrMultipleMainPackagesFound /\
         e = CannotBuildAppError
               (Wrap ErrMultipleMainPackagesFound specifyMain)))) /\
  (snd (fst r) = None ->
     forallb errorDropped (map fst (failedCalls (snd r))) = true).
Proof.
  cbv zeta. rewrite Build_unfold; cbv zeta.
  destruct (reply W h c_setup) as [s0 [e0|]]; simpl.
  { split; [|discriminate]. intros e H; injection H as <-.
    split; [reflexivity|]. exists e0; auto. }
  pose proof (buildBody_fail_fast L W c output (h ++ [mkEvent c_setup s0 None]))
    as Hb; cbv zeta in Hb.
  destruct (buildBody L W c output _) as [[e1|] evs]; simpl in *;
    destruct Hb as (Hne & Herr & Hok).
  - assert (HL : lastEvent (mkEvent c_setup s0 None :: evs) = lastEvent evs).
    { apply (@lastEvent_app [mkEvent c_setup s0 None] evs Hne). }
    destruct (Herr e1 eq_refl) as (Hd & Hc).
    destruct Hc as [Hc | [Hc ->]].
    + destruct (errors.AsExitError e1 || errors.IsMultipleMain e1); simpl;
        (split; [|discriminate]); intros e He; injection He as <-;
        rewrite HL; (split; [exact Hd|]); exists e1; auto.
    + simpl. split; [|discriminate]. intros e He; injection He as <-.
      rewrite HL. split; [exact Hd|].
      exists ErrMultipleMainPackagesFound. auto.
  - unfold lastEvent.
    change (mkEvent c_setup s0 None :: evs ++ ?x)
      with ((mkEvent c_setup s0 None :: evs) ++ x).
    rewrite last_last; simpl. split.
    + intros e He. split; [reflexivity|]. exists e; auto.
    + intros Hn.
      change (mkEvent c_setup s0 None :: evs ++ ?x)
        with ([mkEvent c_setup s0 None] ++ evs ++ x).
      autorewrite with obs2. rewrite !forallb_app, (Hok eq_refl).
      unfold failedCalls; simpl. rewrite Hn; reflexivity.
Qed.

Lemma X11_Build_fail_fast_witness :
  (errorDropped
     (ev_call (lastEvent (snd (Build Example.lib Example.tidyExits
                                 Example.mars "/out" [])))) = false /\
   exists cause,
     ev_err (lastEvent (snd (Build Example.lib Example.tidyExits
                               Example.mars "/out" []))) = Some cause /\
     (CannotBuildAppError (ExitError 1) = cause \/
      CannotBuildAppError (ExitError 1) = CannotBuildAppError cause \/
      (cause = ErrMultipleMainPackagesFound /\
       CannotBuildAppError (ExitError 1) =
       CannotBuildAppError (Wrap ErrMultipleMainPackagesFound specifyMain)))) /\
  forallb errorDropped
    (map fst (failedCalls (snd (Build Example.lib Example2.printFails
                                  Example.mars "/out" [])))) = true /\
  List.length (failedCalls (snd (Build Example.lib Example2.printFails
                                   Example.mars "/out" []))) = 2.
Proof.
  split; [|split].
  - exact (proj1 (@X11_Build_fail_fast Example.lib Example.tidyExits
                    Example.mars "/out" [])
             (CannotBuildAppError (ExitError 1)) eq_refl).
  - exact (proj2 (@X11_Build_fail_fast Example.lib Example2.printFails
                    Example.mars "/out" []) eq_refl).
  - reflexivity.
Defined.

(* ================================================================= *)
(** ** Build: what a failed call leads to *)

(** Every run of [buildBody], call by call.  A call that returned an
    error, and whose error is looked at, is the last call of the run, and
    [buildBody] returns an error.  The error [buildBody] returns is what
    the last call gives rise to, and that call is one of [build].  When
    [buildBody] returns no error the compiler ran once and only progress
    lines failed. *)
Lemma buildBody_outcome L W c output h :
  let b := buildBody L W c output h in
  snd b <> [] /\
  (forall x, In x (snd b) -> ev_err x <> None ->
     errorDropped (ev_call x) = false ->
     x = lastEvent (snd b) /\ fst b <> None) /\
  (forall e, fst b = Some e ->
     errorDropped (ev_call (lastEvent (snd b))) = false /\
     causeOf (lastEvent (snd b)) = Some e /\
     outsideBuild (snd b) = false) /\
  (fst b = None ->
     List.length (buildPathsOf (calls (snd b))) = 1 /\
     ev_err (lastEvent (snd b)) = None).
Proof.
  cbv zeta.
  destruct (buildBody L W c output h) as [err evs] eqn:H. simpl. revert H.
  unfold buildBody, preBuild, discoverMain, lastEvent, causeOf, outsideBuild,
    lastEvent; unfold_run.
  repeat split_reply; intros H; inversion H; subst; clear H;
    (split; [discriminate|]);
    (split;
     [ intros x Hin Hx Hd;
       repeat (destruct Hin as [<- | Hin];
               [ try (exfalso; apply Hx; reflexivity);
                 try discriminate Hd;
                 try (split; [reflexivity | discriminate]) | ]);
       try contradiction
     | ]);
    (split;
     [ intros e' H; try discriminate; injection H as <-;
       (split; [reflexivity|]);
       (split; [|reflexivity]);
       try reflexivity;
       try (sentinel_reply; reflexivity);
       match goal with
       | E : errors.eqMultipleMain (Some ?e) = false |- _ =>
           simpl; destruct e; try reflexivity;
           unfold errors.eqMultipleMain in E; simpl in E; discriminate E
       end
     | intros H; try discriminate; split; reflexivity ]).
Qed.

Lemma outsideBuild_after_setup s evs :
  evs <> [] ->
  lastEvent (mkEvent c_setup s None :: evs) = lastEvent evs /\
  outsideBuild (mkEvent c_setup s None :: evs) = outsideBuild evs.
Proof.
  intros Hne.
  assert (HL : lastEvent (mkEvent c_setup s None :: evs) = lastEvent evs).
  { apply (@lastEvent_app [mkEvent c_setup s None] evs Hne). }
  split; [exact HL|]. unfold outsideBuild. rewrite HL. reflexivity.
Qed.

(** C1, as the code has it.  In every run of [Build], a call that
    returns an error is the last call of the run and makes [Build] return
    an error, unless it is a progress line, whose error is not looked at.
    The error [Build] returns is made of what that last call returned,
    the multiple-main sentinel of the scan being put under the message of
    [discoverMain] first: it is returned as it is when the call is
    [c.setup] or the [c.Binary] that follows the compiler; when the call
    is one of [build] (code generation, the flags with their dependency
    steps, the binary name, the entry point, the compiler) it is returned
    in a [CannotBuildAppError] exactly when its chain holds an exit error
    or the multiple-main sentinel, and as it is otherwise.  What the
    [c.Binary] that follows the compiler returns is what [Build]
    returns. *)
Theorem C1_Build_reclassifies L W c output h :
  let r := Build L W c output h in
  let ev := lastEvent (snd r) in
  (forall x, In x (snd r) -> ev_err x <> None ->
     errorDropped (ev_call x) = false ->
     x = ev /\ snd (fst r) <> None) /\
  (forall e, snd (fst r) = Some e ->
     errorDropped (ev_call ev) = false /\
     exists cause,
       causeOf ev = Some cause /\
       e = (if outsideBuild (snd r) then cause
            else if errors.AsExitError cause || errors.IsMultipleMain cause
                 then CannotBuildAppError cause
                 else cause) /\
       (outsideBuild (snd r) = false -> fst (fst r) = "")) /\
  (ev_call ev = c_Binary -> outsideBuild (snd r) = true ->
     fst r = (ev_ret ev, ev_err ev)) /\
  (ev_call ev = c_setup -> fst r = ("", ev_err ev)).
Proof.
  cbv zeta. rewrite Build_unfold; cbv zeta.
  destruct (reply W h c_setup) as [s0 [e0|]]; simpl.
  { (* c.setup failed *)
    split; [|split; [|split]].
    - intros x [<- | []] _ _. split; [reflexivity | discriminate].
    - intros e H; injection H as <-. split; [reflexivity|].
      exists e0. split; [reflexivity|]. split; [reflexivity|].
      discriminate.
    - discriminate.
    - reflexivity. }
  pose proof (buildBody_outcome L W c output (h ++ [mkEvent c_setup s0 None]))
    as Hb; cbv zeta in Hb.
  destruct (buildBody L W c output _) as [[e1|] evs]; simpl in *;
    destruct Hb as (Hne & Hin & Herr & Hok).
  - (* a step of build failed *)
    destruct (outsideBuild_after_setup s0 Hne) as [HL HO].
    destruct (Herr e1 eq_refl) as (Hd & Hc & Ho).
    assert (R : forall e,
              (if errors.AsExitError e1 || errors.IsMultipleMain e1
               then Some (CannotBuildAppError e1) else Some e1) = Some e ->
              e = (if errors.AsExitError e1 || errors.IsMultipleMain e1
                   then CannotBuildAppError e1 else e1)).
    { intros e. destruct (errors.AsExitError e1 || errors.IsMultipleMain e1);
        intros H; injection H as <-; reflexivity. }
    destruct (if errors.AsExitError e1 || errors.IsMultipleMain e1
              then Some (CannotBuildAppError e1) else Some e1)
      as [e2|] eqn:E2;
      [|destruct (errors.AsExitError e1 || errors.IsMultipleMain e1);
        discriminate E2].
    simpl. rewrite HL, HO, Ho.
    split; [|split; [|split]].
    + intros x [<- | Hx] Hf Hdr.
      * exfalso; apply Hf; reflexivity.
      * split; [apply (Hin x Hx Hf Hdr) | discriminate].
    + intros e H; injection H as <-. split; [exact Hd|].
      exists e1. split; [exact Hc|]. split; [apply R; reflexivity|].
      reflexivity.
    + discriminate.
    + intros Hs. unfold outsideBuild in Ho. rewrite Hs in Ho. discriminate Ho.
  - (* build went through: the last call is c.Binary *)
    destruct (Hok eq_refl) as (Hn & _).
    destruct (reply W _ c_Binary) as [binary err] eqn:Eb; simpl.
    assert (HL : lastEvent (mkEvent c_setup s0 None
                              :: evs ++ [mkEvent c_Binary binary err])
                 = mkEvent c_Binary binary err).
    { unfold lastEvent.
      change (mkEvent c_setup s0 None :: evs ++ ?x)
        with ((mkEvent c_setup s0 None :: evs) ++ x).
      apply last_last. }
    assert (HO : outsideBuild (mkEvent c_setup s0 None
                                 :: evs ++ [mkEvent c_Binary binary err])
                 = true).
    { unfold outsideBuild. rewrite HL. simpl.
      autorewrite with obs2. simpl. rewrite ?app_nil_r, Hn. reflexivity. }
    rewrite HL, HO. simpl.
    split; [|split; [|split]].
    + intros x [<- | Hx] Hf Hdr.
      * exfalso; apply Hf; reflexivity.
      * apply in_app_or in Hx. destruct Hx as [Hx | [<- | []]].
        -- destruct (Hin x Hx Hf Hdr) as [_ Hc]. exfalso; apply Hc; reflexivity.
        -- split; [reflexivity | exact Hf].
    + intros e ->. split; [reflexivity|].
      exists e. split; [reflexivity|]. split; [reflexivity|]. discriminate.
    + reflexivity.
    + discriminate.
Qed.

(** Two instances of C1.  The compiler exits with a status that is not
    zero: [Build] returns a [CannotBuildAppError] that carries the exit
    error.  [go mod tidy] exits with a status that is not zero: that call
    is the last of the run, and [Build] returns an error. *)
Lemma C1_Build_reclassifies_witness :
  (errorDropped
     (ev_call (lastEvent (snd (Build Example.lib Example.compilerExits
                                 Example.mars "/out" [])))) = false /\
   exists cause,
     causeOf (lastEvent (snd (Build Example.lib Example.compilerExits
                                Example.mars "/out" []))) = Some cause /\
     CannotBuildAppError (ExitError 2) =
       (if outsideBuild (snd (Build Example.lib Example.compilerExits
                                Example.mars "/out" []))
        then cause
        else if errors.AsExitError cause || errors.IsMultipleMain cause
             then CannotBuildAppError cause
             else cause) /\
     (outsideBuild (snd (Build Example.lib Example.compilerExits
                           Example.mars "/out" [])) = false ->
      fst (fst (Build Example.lib Example.compilerExits
                  Example.mars "/out" [])) = "")) /\
  (mkEvent (gocmd_ModTidy "/src/mars") "" (Some (ExitError 1)) =
     lastEvent (snd (Build Example.lib Example.tidyExits Example.mars "/out" [])) /\
   snd (fst (Build Example.lib Example.tidyExits Example.mars "/out" []))
     <> None).
Proof.
  split.
  - exact (proj1 (proj2 (@C1_Build_reclassifies Example.lib
                           Example.compilerExits Example.mars "/out" []))
             (CannotBuildAppError (ExitError 2)) eq_refl).
  - apply (proj1 (@C1_Build_reclassifies Example.lib Example.tidyExits
                    Example.mars "/out" [])
             (mkEvent (gocmd_ModTidy "/src/mars") "" (Some (ExitError 1)))).
    + vm_compute. do 5 right. left. reflexivity.
    + discriminate.
    + reflexivity.
Defined.

(* ================================================================= *)
(** ** Build: a scan that fails *)

Lemma failedCalls_In (evs : list event) (c : call) (e : error) :
  In (c, e) (failedCalls evs) ->
  exists x, In x evs /\ ev_call x = c /\ ev_err x = Some e.
Proof.
  induction evs as [|ev evs IH]; simpl; [intros []|].
  unfold failedCalls; simpl. fold (failedCalls evs).
  destruct (ev_err ev) as [e'|] eqn:E; simpl.
  - intros [H | H].
    + injection H as <- <-. exists ev; auto.
    + destruct (IH H) as (x & Hx & Hc & He). exists x; auto.
  - intros H. destruct (IH H) as (x & Hx & Hc & He). exists x; auto.
Qed.

(** When the scan returned an error, [buildBody] returns what that error
    gives rise to: the error itself, or the sentinel under the message of
    [discoverMain]. *)
Lemma buildBody_scan_failed L W c output h p e :
  let b := buildBody L W c output h in
  In (goanalysis_DiscoverOneMain p, e) (failedCalls (snd b)) ->
  fst b = causeOf (mkEvent (goanalysis_DiscoverOneMain p) "" (Some e)).
Proof.
  cbv zeta. intros H.
  destruct (failedCalls_In _ _ _ H) as (x & Hx & Hc & He).
  destruct (buildBody_outcome L W c output h) as (_ & Hin & Herr & _).
  assert (Hf : ev_err x <> None) by (rewrite He; discriminate).
  assert (Hd : errorDropped (ev_call x) = false) by (rewrite Hc; reflexivity).
  destruct (Hin x Hx Hf Hd) as [-> Hn].
  destruct (fst (buildBody L W c output h)) as [e'|] eqn:E;
    [|exfalso; apply Hn; reflexivity].
  destruct (Herr e' eq_refl) as (_ & <- & _).
  unfold causeOf. rewrite Hc, He. reflexivity.
Qed.

(** [Build] then returns that error after the deferred function of [build]
    looked at it. *)
Lemma Build_scan_failed L W c output h p e :
  In (goanalysis_DiscoverOneMain p, e)
     (failedCalls (snd (Build L W c output h))) ->
  fst (Build L W c output h) =
    ("", reclassify
           (causeOf (mkEvent (goanalysis_DiscoverOneMain p) "" (Some e)))).
Proof.
  rewrite Build_unfold; cbv zeta.
  destruct (reply W h c_setup) as [s0 [e0|]]; simpl.
  { intros [H | []]. discriminate H. }
  pose proof (@buildBody_scan_failed L W c output
                (h ++ [mkEvent c_setup s0 None]) p e) as Hb.
  cbv zeta in Hb.
  destruct (buildBody L W c output _) as [[e1|] evs]; simpl in *.
  - destruct (errors.AsExitError e1 || errors.IsMultipleMain e1) eqn:Hr;
      simpl; intros H; rewrite <- (Hb H); simpl; rewrite Hr; reflexivity.
  - change (mkEvent c_setup s0 None :: evs ++ ?x)
      with ([mkEvent c_setup s0 None] ++ evs ++ x).
    autorewrite with obs2. unfold failedCalls at 1; simpl.
    intros H. apply in_app_or in H. destruct H as [H | H].
    + specialize (Hb H). destruct e; discriminate Hb.
    + exfalso. unfold failedCalls in H; simpl in H.
      destruct (snd (reply W _ c_Binary)); simpl in H;
        [destruct H as [H | []]; discriminate H | destruct H].
Qed.

(** C6.  With no entry point in the configuration, a scan that finds more
    than one main package makes [discoverMain] fail with the sentinel under
    the message that asks for [build.main].  A run of [Build] in which the
    scan returned the sentinel returns a [CannotBuildAppError] that carries
    this error.  And so does [Build] whenever the calls before the scan
    return no error, the configuration names no entry point and the scan
    then returns the sentinel. *)
Theorem C6_multiple_mains_cannot_build L W c output path h :
  (forall conf s,
     replyConfig W h = (conf, None) ->
     chainconf.Main (chainconf.Build conf) = "" ->
     reply W (h ++ [mkEvent c_Config "" None]) (goanalysis_DiscoverOneMain path)
       = (s, Some ErrMultipleMainPackagesFound) ->
     fst (discoverMain W c path h) =
       ("", Some (Wrap ErrMultipleMainPackagesFound specifyMain))) /\
  (forall p,
     In (goanalysis_DiscoverOneMain p, ErrMultipleMainPackagesFound)
        (failedCalls (snd (Build L W c output h))) ->
     fst (Build L W c output h) =
       ("", Some (CannotBuildAppError
                    (Wrap ErrMultipleMainPackagesFound specifyMain)))) /\
  (forall s0 s1 flags evsP binary conf s,
     let h1 := h ++ [mkEvent c_setup s0 None] in
     let h2 := h1 ++ [mkEvent c_generateAll s1 None] in
     let h3 := (h2 ++ evsP) ++ [mkEvent c_Binary binary None] in
     reply W h c_setup = (s0, None) ->
     reply W h1 c_generateAll = (s1, None) ->
     preBuild L W c h2 = ((flags, None), evsP) ->
     reply W (h2 ++ evsP) c_Binary = (binary, None) ->
     replyConfig W h3 = (conf, None) ->
     chainconf.Main (chainconf.Build conf) = "" ->
     reply W (h3 ++ [mkEvent c_Config "" None])
           (goanalysis_DiscoverOneMain (Path (app c)))
       = (s, Some ErrMultipleMainPackagesFound) ->
     Build L W c output h =
       (("", Some (CannotBuildAppError
                     (Wrap ErrMultipleMainPackagesFound specifyMain))),
        [mkEvent c_setup s0 None; mkEvent c_generateAll s1 None] ++ evsP
        ++ [mkEvent c_Binary binary None; mkEvent c_Config "" None;
            mkEvent (goanalysis_DiscoverOneMain (Path (app c))) s
                    (Some ErrMultipleMainPackagesFound)])).
Proof.
  split; [|split].
  - intros conf s Hc Hm Hs. unfold discoverMain; unfold_run.
    rewrite Hc; simpl. rewrite Hm; simpl. rewrite Hs; reflexivity.
  - intros p H. rewrite (Build_scan_failed _ _ _ _ _ _ _ H). reflexivity.
  - intros s0 s1 flags evsP binary conf s h1 h2 h3 R0 R1 RP R2 RC Hm RS.
    subst h1 h2 h3.
    unfold Build, build, buildBody, discoverMain.
    unfold bind, invokeErr, invoke, Config, ret; simpl.
    rewrite R0; simpl. rewrite R1; simpl. rewrite RP; simpl.
    rewrite R2; simpl. rewrite RC; simpl. rewrite Hm; simpl.
    rewrite RS; simpl. rewrite ?app_nil_r. reflexivity.
Qed.

(** An instance of C6, in a world where the scan finds more than one main
    package and every other call goes through. *)
Lemma C6_multiple_mains_cannot_build_witness :
  fst (discoverMain Example.manyMains Example.mars "/src/mars" []) =
    ("", Some (Wrap ErrMultipleMainPackagesFound specifyMain)) /\
  fst (Build Example.lib Example.manyMains Example.mars "/out" []) =
    ("", Some (CannotBuildAppError
                 (Wrap ErrMultipleMainPackagesFound specifyMain))) /\
  snd (Build Example.lib Example.manyMains Example.mars "/out" []) =
    [mkEvent c_setup "" None; mkEvent c_generateAll "" None]
    ++ snd (preBuild Example.lib Example.manyMains Example.mars
              [mkEvent c_setup "" None; mkEvent c_generateAll "" None])
    ++ [mkEvent c_Binary "marsd" None; mkEvent c_Config "" None;
        mkEvent (goanalysis_DiscoverOneMain "/src/mars") ""
                (Some ErrMultipleMainPackagesFound)].
Proof.
  split; [|split].
  - apply (proj1 (@C6_multiple_mains_cannot_build Example.lib Example.manyMains
                    Example.mars "/out" "/src/mars" []) chainconf.empty "");
      reflexivity.
  - apply (proj1 (proj2 (@C6_multiple_mains_cannot_build Example.lib
                           Example.manyMains Example.mars "/out" "/src/mars" []))
             "/src/mars").
    vm_compute. left. reflexivity.
  - apply (f_equal snd
             (proj2 (proj2 (@C6_multiple_mains_cannot_build Example.lib
                              Example.manyMains Example.mars "/out" "/src/mars" []))
                "" ""
                (fst (fst (preBuild Example.lib Example.manyMains Example.mars
                             [mkEvent c_setup "" None;
                              mkEvent c_generateAll "" None])))
                (snd (preBuild Example.lib Example.manyMains Example.mars
                        [mkEvent c_setup "" None;
                         mkEvent c_generateAll "" None]))
                "marsd" chainconf.empty ""
                eq_refl eq_refl eq_refl eq_refl eq_refl eq_refl eq_refl)).
Defined.

(** X4.  When the scan returns an error that is not the sentinel itself,
    [Build] returns that error without the message that asks for
    [build.main]: unchanged, or in a [CannotBuildAppError] when its chain
    holds the sentinel or an exit error.  [discoverMain] compares with
    [==], the deferred function of [build] with [errors.Is]. *)
Theorem X4_Build_scan_error_without_hint L W c output h p e :
  In (goanalysis_DiscoverOneMain p, e)
     (failedCalls (snd (Build L W c output h))) ->
  e <> ErrMultipleMainPackagesFound ->
  fst (Build L W c output h) =
    ("", Some (if errors.AsExitError e || errors.IsMultipleMain e
               then CannotBuildAppError e else e)).
Proof.
  intros H Hne. rewrite (Build_scan_failed _ _ _ _ _ _ _ H).
  assert (Hc : causeOf (mkEvent (goanalysis_DiscoverOneMain p) "" (Some e))
               = Some e).
  { unfold causeOf; simpl. destruct e; try reflexivity. contradiction. }
  rewrite Hc. simpl.
  destruct (errors.AsExitError e || errors.IsMultipleMain e); reflexivity.
Qed.

Lemma X4_Build_scan_error_without_hint_witness :
  fst (Build Example.lib Example2.wrappedMains Example.mars "/out" []) =
    ("", Some (CannotBuildAppError
                 (Wrap ErrMultipleMainPackagesFound "scanning /src/mars"))) /\
  fst (Build Example.lib Example2.noMain Example.mars "/out" []) =
    ("", Some (ErrorString "main package cannot be found")).
Proof.
  split.
  - apply (@X4_Build_scan_error_without_hint Example.lib Example2.wrappedMains
             Example.mars "/out" [] "/src/mars"
             (Wrap ErrMultipleMainPackagesFound "scanning /src/mars"));
      [vm_compute; left; reflexivity | discriminate].
  - apply (@X4_Build_scan_error_without_hint Example.lib Example2.noMain
             Example.mars "/out" [] "/src/mars"
             (ErrorString "main package cannot be found"));
      [vm_compute; left; reflexivity | discriminate].
Defined.

(* ================================================================= *)
(** ** The temporary directories after a run *)

(** A directory that was given to [os.RemoveAll], was not created again,
    and is still there: a call of [os.RemoveAll] on it returned an
    error. *)
Lemma liveTemps_failed_removal (evs : list event) : forall live d,
  tempDirs evs = [] ->
  In d (removedOf (calls evs)) ->
  In d (liveTemps evs live) ->
  exists e, In (os_RemoveAll d, e) (failedCalls evs).
Proof.
  induction evs as [|ev evs IH]; intros live d; simpl; [intros _ []|].
  unfold tempDirs, failedCalls in *; simpl.
  destruct ev as [cl rt [er|]]; destruct cl; simpl;
    try discriminate;
    try (intros HT Hr Hl; destruct (IH _ _ HT Hr Hl) as [e He];
         exists e; auto; right; exact He; fail).
  - (* a removal that failed *)
    intros HT [<- | Hr] Hl.
    + exists er. left; reflexivity.
    + destruct (IH _ _ HT Hr Hl) as [e He]. exists e. right; exact He.
  - (* a removal that went through *)
    intros HT [<- | Hr] Hl.
    + exfalso. apply liveTemps_incl in Hl. unfold tempDirs in Hl.
      rewrite HT in Hl. destruct Hl as [Hl | []].
      apply filter_In in Hl. destruct Hl as [_ Hl].
      rewrite String.eqb_refl in Hl; discriminate.
    + apply (IH _ _ HT Hr Hl).
Qed.

Lemma failed_removal_observed (fc : list (call * error)) d e :
  In (os_RemoveAll d, e) fc -> In d (removedOf (map fst fc)).
Proof.
  intros H. unfold removedOf. apply in_flat_map.
  exists (os_RemoveAll d). split; [|left; reflexivity].
  apply (in_map fst) in H. exact H.
Qed.

(** C9.  Each temporary directory a run of [BuildRelease] created is given
    to [os.RemoveAll] by the deferred calls that end the run, on every path
    through the function.  A temporary directory is left after the run
    only when the call of [os.RemoveAll] on it returned an error, which
    the code drops; when no removal returns an error none is left.  The
    removal is deferred right after the directory is created: whatever the
    rest of a turn of the loop does, the turn hands on one deferred removal
    for each directory it created. *)
Theorem C9_temp_dirs_removed L W c output prefix targets h :
  let evs := snd (BuildRelease L W c output prefix targets h) in
  (forall d, In d (liveTemps evs []) ->
     In d (tempDirs evs) /\ exists e, In (os_RemoveAll d, e) (failedCalls evs)) /\
  (removedOf (map fst (failedCalls evs)) = [] -> liveTemps evs [] = []) /\
  (exists before after,
     evs = before ++ after /\
     forallb isCleanup (calls after) = true /\
     removedOf (calls after) = rev (tempDirs evs)) /\
  (forall binary mainPath buildFlags releasePath prefix' t deferred h',
     let turn := buildTarget L W binary mainPath buildFlags releasePath
                   prefix' t deferred h' in
     removedOf (snd (fst turn))
       = rev (tempDirs (snd turn)) ++ removedOf deferred).
Proof.
  cbv zeta.
  destruct (BuildRelease_run L W c output prefix targets h)
    as (evsP & evsL & evsS & evsD & n & m & -> & (P1 & P2 & P3 & P4 & P5) & HP
        & (L1 & L2 & Hnm & Hmn & Hm & L3 & L4 & L5) & (D1 & D2) & HS).
  destruct (cleanup_no_temp evsD D1) as [T1 T2].
  assert (S2 : tempDirs evsS = []).
  { destruct HS as [(-> & _) | (s & -> & _)]; reflexivity. }
  assert (HT : tempDirs (evsP ++ evsL ++ evsS ++ evsD) = tempDirs evsL).
  { autorewrite with obs. rewrite P1, S2, T1, app_nil_r; reflexivity. }
  assert (Hlive : forall d,
            In d (liveTemps (evsP ++ evsL ++ evsS ++ evsD) []) ->
            In d (tempDirs evsL) /\
            exists e, In (os_RemoveAll d, e)
                         (failedCalls (evsP ++ evsL ++ evsS ++ evsD))).
  { intros d. rewrite !app_assoc, liveTemps_app, <- !app_assoc. intros Hin.
    assert (Hd : In d (tempDirs evsL)).
    { apply liveTemps_incl in Hin. rewrite T1 in Hin.
      destruct Hin as [Hin | []].
      apply liveTemps_incl in Hin. destruct Hin as [[] | Hin].
      revert Hin. autorewrite with obs. rewrite P1, S2, app_nil_r; auto. }
    split; [exact Hd|].
    destruct (@liveTemps_failed_removal evsD
                (liveTemps (evsP ++ evsL ++ evsS) []) d T1) as [e He];
      [rewrite D2, <- in_rev; exact Hd | exact Hin |].
    exists e. rewrite !failedCalls_app.
    apply in_or_app; right. apply in_or_app; right. apply in_or_app; right.
    exact He. }
  split; [|split; [|split]].
  - intros d Hin. rewrite HT. apply Hlive; exact Hin.
  - intros Hno.
    destruct (liveTemps (evsP ++ evsL ++ evsS ++ evsD) []) as [|d rest] eqn:E;
      [reflexivity|].
    exfalso. destruct (Hlive d) as [_ [e He]]; [left; reflexivity|].
    apply failed_removal_observed in He. rewrite Hno in He. destruct He.
  - exists (evsP ++ evsL ++ evsS), evsD.
    rewrite <- !app_assoc, HT. auto.
  - intros binary mainPath buildFlags releasePath prefix' t deferred h'.
    apply (buildTarget_calls L W binary mainPath buildFlags releasePath
             prefix' t deferred h').
Qed.

(** Two instances of C9.  When the compiler fails for the first target,
    the one temporary directory of the run is removed.  When
    [os.RemoveAll] fails, the temporary directory is left, and the run
    recorded the removal that failed. *)
Lemma C9_temp_dirs_removed_witness :
  (tempDirs (snd (BuildRelease Example.lib Example.compilerExits Example.mars
                    "/out" "foo" ["linux:amd64"; "darwin:arm64"] []))
     = ["/tmp/biiiiiiiiiii"] /\
   liveTemps (snd (BuildRelease Example.lib Example.compilerExits Example.mars
                     "/out" "foo" ["linux:amd64"; "darwin:arm64"] [])) [] = []) /\
  (liveTemps (snd (BuildRelease Example.lib Example2.cleanupFails Example.mars
                     "/out" "foo" ["linux:amd64"] [])) []
     = ["/tmp/biiiiiiiiiii"] /\
   exists e,
     In (os_RemoveAll "/tmp/biiiiiiiiiii", e)
        (failedCalls (snd (BuildRelease Example.lib Example2.cleanupFails
                             Example.mars "/out" "foo" ["linux:amd64"] [])))).
Proof.
  split; (split; [reflexivity|]).
  - exact (proj1 (proj2 (@C9_temp_dirs_removed Example.lib Example.compilerExits
                           Example.mars "/out" "foo"
                           ["linux:amd64"; "darwin:arm64"] []))
             eq_refl).
  - apply (proj1 (@C9_temp_dirs_removed Example.lib Example2.cleanupFails
                    Example.mars "/out" "foo" ["linux:amd64"] [])
             "/tmp/biiiiiiiiiii").
    vm_compute. left. reflexivity.
Defined.

(* ================================================================= *)
(** ** The checksum *)

(** The steps before the loop compile, archive and write nothing; when
    they return no error, the release directory is the one
    [BuildRelease] is to work in, and no call whose error is looked at
    failed. *)
Lemma prepareRelease_before_loop L W c output h :
  let p := prepareRelease L W c output h in
  checksumOf (calls (snd p)) = [] /\ compiledOf (calls (snd p)) = [] /\
  tempDirs (snd p) = [] /\ written (snd p) = [] /\
  tarredOf (calls (snd p)) = [] /\ openedOf (snd p) = [] /\
  (snd (fst p) = None ->
     snd (fst (fst p)) = releasePathOf c output /\
     forallb errorDropped (map fst (failedCalls (snd p))) = true).
Proof.
  cbv zeta.
  destruct (prepareRelease_run L W c output h)
    as (before & after & Hba & (_ & Q2 & _ & Q4 & Q5 & Q6)
        & A1 & A2 & A3 & _ & A5 & Hok & _).
  destruct (prepareRelease_steps L W c output h)
    as (_ & _ & T0 & O0 & _ & _ & _ & _ & K0).
  rewrite T0, O0. rewrite Hba at 1 2 3 4. autorewrite with obs.
  rewrite Q2, Q4, Q5, Q6, A1, A2, A3, A5.
  repeat split.
  - apply Hok; assumption.
  - apply K0; assumption.
Qed.

(** C10.  The checksum is written only once everything before it went
    through.  Either a run makes no call to the checksum writer, and then
    it returns an empty path with an error; or it calls the writer once,
    and then no call made before it whose error is looked at had failed:
    the steps before the loop went through, every token parsed, and for
    each target a temporary directory was created, the compiler ran, the
    directory was archived, and the archive file was opened and written.
    Such a run returns the release directory, which is never the empty
    string, together with whatever the writer returned: the path comes
    back with the error when the checksum fails. *)
Theorem C10_checksum_after_all_targets L W c output prefix targets h :
  let r := BuildRelease L W c output prefix targets h in
  let targets' := defaultTargets L targets in
  let prefix' := defaultPrefix c prefix in
  let rp := releasePathOf c output in
  rp <> "" /\
  ((checksumOf (calls (snd r)) = [] /\
    fst (fst r) = "" /\ snd (fst r) <> None) \/
   (exists evs1 s evs2,
      snd r = evs1
              ++ mkEvent (checksum_Sum rp (filepath.Join rp checksumTxt)) s
                         (snd (fst r))
              :: evs2 /\
      fst (fst r) = rp /\
      checksumOf (calls evs1) = [] /\
      forallb errorDropped (map fst (failedCalls evs1)) = true /\
      forallb parses targets' = true /\
      List.length (tempDirs evs1) = List.length targets' /\
      compiledOf (calls evs1) = map (envOf L) targets' /\
      tarredOf (calls evs1) = tempDirs evs1 /\
      openedOf evs1 = map (archivePath rp prefix') targets' /\
      written evs1 = map (archivePath rp prefix') targets' /\
      forallb isCleanup (calls evs2) = true)).
Proof.
  cbv zeta. split; [apply releasePathOf_not_empty|].
  rewrite BuildRelease_unfold; cbv zeta.
  pose proof (prepareRelease_before_loop L W c output h) as Hp;
    cbv zeta in Hp.
  destruct (prepareRelease L W c output h) as [[[[[f b] mp] rp] [e|]] evs0];
    simpl in *;
    destruct Hp as (PC & PB & PT & PW & PA & PO & Hok).
  - (* a step before the loop failed *)
    left. rewrite PC. repeat split; discriminate.
  - destruct (Hok eq_refl) as [-> PF]; clear Hok.
    set (rp := releasePathOf c output) in *.
    pose proof (buildTargets_calls L W b mp f rp (defaultPrefix c prefix)
                  (defaultTargets L targets) [] (h ++ evs0)) as Hc.
    pose proof (buildTargets_ok L W b mp f rp (defaultPrefix c prefix)
                  (defaultTargets L targets) [] (h ++ evs0)) as Ho.
    pose proof (buildTargets_steps_ok L W b mp f rp (defaultPrefix c prefix)
                  (defaultTargets L targets) [] (h ++ evs0)) as Hs.
    cbv zeta in Hc, Ho, Hs.
    destruct (buildTargets _ _ _ _ _ _ _ _ _ _) as [[err ds] evs1]; simpl in *.
    destruct Hc as (_ & C1 & _ & _ & K1). specialize (K1 eq_refl).
    destruct err as [e|]; simpl.
    + (* the loop failed *)
      pose proof (runDeferred_calls W ds ((h ++ evs0) ++ evs1)) as Hd.
      destruct (runDeferred W ds _) as [u evsD]; simpl in *.
      left. autorewrite with obs. rewrite PC, C1, Hd.
      destruct (cleanup_observed _ K1) as (_ & _ & -> & _).
      repeat split; discriminate.
    + (* the loop went through: the checksum *)
      destruct (Ho eq_refl) as (P2 & C2 & _ & W2).
      destruct (Hs eq_refl) as (Ln & Tr & Op & _ & Fd).
      match goal with
      | |- context [runDeferred W ds ?hh] =>
          pose proof (runDeferred_calls W ds hh) as Hd;
          destruct (runDeferred W ds hh) as [u evsD]; simpl in *
      end.
      right.
      match goal with
      | |- context [mkEvent ?cc ?s ?ee :: evsD] =>
          exists (evs0 ++ evs1), s, evsD
      end.
      rewrite Hd. autorewrite with obs obs2.
      rewrite PC, C1, PB, C2, PT, PW, W2, PA, Tr, PO, Op, forallb_app, PF, Fd.
      repeat split; auto. rewrite <- !app_assoc; reflexivity.
Qed.

(** An instance of C10: the checksum writer fails, and the release
    directory comes back with its error. *)
Lemma C10_checksum_after_all_targets_witness :
  fst (BuildRelease Example.lib Example.sumFails Example.mars
         "/out" "foo" ["linux:amd64"] [])
  = ("/out", Some (ErrorString "checksum: permission denied")) /\
  ("/out" = "" -> False).
Proof.
  destruct (@C10_checksum_after_all_targets Example.lib Example.sumFails
              Example.mars "/out" "foo" ["linux:amd64"] [])
    as [Hne [(_ & H & _) | (evs1 & s & evs2 & _ & H1 & _)]].
  - vm_compute in H; discriminate H.
  - split; [reflexivity | exact Hne].
Defined.

(* ================================================================= *)
(** ** The archive files, call by call *)

Lemma fileOpsOf_app (a b : list call) :
  fileOpsOf (a ++ b) = fileOpsOf a ++ fileOpsOf b.
Proof. apply filter_app. Qed.

Lemma tarStreams_app (a b : list event) :
  tarStreams (a ++ b) = tarStreams a ++ tarStreams b.
Proof. apply flat_map_app. Qed.

Lemma cleanup_no_stream (evs : list event) :
  forallb isCleanup (calls evs) = true -> tarStreams evs = [].
Proof.
  induction evs as [|e evs IH]; simpl; [reflexivity|].
  intros H; apply andb_true_iff in H; destruct H as [He H].
  unfold tarStreams in *; simpl. rewrite (IH H).
  destruct (ev_call e); simpl in *; try discriminate; reflexivity.
Qed.

(** The steps before the loop touch no archive file and call no
    archiver. *)
Lemma prepareRelease_no_files L W c output h :
  let p := prepareRelease L W c output h in
  fileOpsOf (calls (snd p)) = [] /\ tarStreams (snd p) = [].
Proof.
  unfold prepareRelease, preBuild, discoverMain; cbv zeta.
  destruct (output =? "")%string; unfold_run;
    repeat split_reply; split; reflexivity.
Qed.

(** A turn of the loop that returns no error created the archive file,
    copied into it the stream the archiver returned, and closed it, in
    this order. *)
Lemma buildTarget_files_ok L W binary mainPath buildFlags releasePath prefix
    t deferred h :
  let r := buildTarget L W binary mainPath buildFlags releasePath prefix
             t deferred h in
  fst (fst r) = None ->
  exists s,
    tarStreams (snd r) = [s] /\
    fileOpsOf (calls (snd r)) =
      archiveSteps (archivePath releasePath prefix t, s).
Proof.
  unfold buildTarget, archivePath, gocmd.ParseTarget, archiveSteps.
  destruct (strings.Split t ":"%char) as [|p1 [|p2 [|p3 ps]]]; simpl;
    try discriminate.
  unfold_run. repeat split_reply; intros H; try discriminate;
    eexists; split; reflexivity.
Qed.

Lemma buildTargets_files_ok L W binary mainPath buildFlags releasePath prefix
    targets : forall deferred h,
  let r := buildTargets L W binary mainPath buildFlags releasePath prefix
             targets deferred h in
  fst (fst r) = None ->
  fileOpsOf (calls (snd r)) =
    flat_map archiveSteps (combine (openedOf (snd r)) (tarStreams (snd r))).
Proof.
  induction targets as [|t rest IH]; intros deferred h.
  - rewrite buildTargets_nil; reflexivity.
  - rewrite buildTargets_cons.
    pose proof (buildTarget_files_ok L W binary mainPath buildFlags releasePath
                  prefix t deferred h) as Hf.
    pose proof (buildTarget_steps_ok L W binary mainPath buildFlags releasePath
                  prefix t deferred h) as Hok.
    cbv zeta in Hf, Hok.
    destruct (buildTarget _ _ _ _ _ _ _ _ _ _) as [[[e|] ds] evs];
      simpl in *; [discriminate|].
    destruct (Hf eq_refl) as (s & Ts & Fo).
    destruct (Hok eq_refl) as (_ & _ & Op & _).
    specialize (IH ds (h ++ evs)); cbv zeta in IH.
    destruct (buildTargets _ _ _ _ _ _ _ _ _ _) as [[err ds'] evs']; simpl in *.
    intros ->. specialize (IH eq_refl).
    rewrite calls_app, fileOpsOf_app, openedOf_app, tarStreams_app.
    rewrite Fo, Ts, Op, IH. reflexivity.
Qed.

(** X8.  [BuildRelease] closes every archive file it opened: the deferred
    calls that end a run, on every path through the function, close each
    file that [os.Create] opened, the last one first.  In a run that
    returns no error each file was also closed right after it was
    written: the calls on the archive files before the deferred ones are,
    for each file in turn, [os.Create], [io.Copy] of the stream that
    [archive.Tar] returned for the target, and [File.Close]. *)
Theorem X8_BuildRelease_closes_archives L W c output prefix targets h :
  let r := BuildRelease L W c output prefix targets h in
  exists main after,
    snd r = main ++ after /\
    forallb isCleanup (calls after) = true /\
    closedOf (calls after) = rev (openedOf (snd r)) /\
    (snd (fst r) = None ->
       closedOf (calls main) = openedOf (snd r) /\
       fileOpsOf (calls main) =
         flat_map archiveSteps
                  (combine (openedOf (snd r)) (tarStreams (snd r)))).
Proof.
  cbv zeta. rewrite BuildRelease_unfold; cbv zeta.
  pose proof (prepareRelease_steps L W c output h) as Hs; cbv zeta in Hs.
  pose proof (prepareRelease_no_files L W c output h) as Hn; cbv zeta in Hn.
  destruct (prepareRelease L W c output h) as [[[[[f b] mp] rp] err0] evs0];
    simpl in *.
  destruct Hs as (_ & _ & _ & O0 & C0 & _).
  destruct Hn as (F0 & S0).
  destruct err0 as [e0|]; simpl.
  - (* a step before the loop failed *)
    exists evs0, []. rewrite app_nil_r, O0. repeat split; discriminate.
  - pose proof (buildTargets_steps L W b mp f rp (defaultPrefix c prefix)
                  (defaultTargets L targets) [] (h ++ evs0)) as Hl.
    pose proof (buildTargets_steps_ok L W b mp f rp (defaultPrefix c prefix)
                  (defaultTargets L targets) [] (h ++ evs0)) as Hok.
    pose proof (buildTargets_files_ok L W b mp f rp (defaultPrefix c prefix)
                  (defaultTargets L targets) [] (h ++ evs0)) as Hf.
    pose proof (buildTargets_calls L W b mp f rp (defaultPrefix c prefix)
                  (defaultTargets L targets) [] (h ++ evs0)) as Hc.
    cbv zeta in Hl, Hok, Hf, Hc.
    destruct (buildTargets _ _ _ _ _ _ _ _ _ _) as [[err ds] evs1]; simpl in *.
    destruct Hl as (_ & _ & _ & Cl1 & _).
    destruct Hc as (_ & _ & _ & _ & K1). specialize (K1 eq_refl).
    rewrite app_nil_r in Cl1.
    destruct err as [e|]; simpl.
    + (* the loop failed *)
      pose proof (runDeferred_calls W ds ((h ++ evs0) ++ evs1)) as Hd.
      destruct (runDeferred W ds _) as [u evsD]; simpl in *.
      assert (KD : forallb isCleanup (calls evsD) = true)
        by (rewrite Hd; exact K1).
      destruct (cleanup_observed2 evsD KD) as (_ & _ & _ & _ & O3 & _).
      exists (evs0 ++ evs1), evsD.
      rewrite Hd. autorewrite with obs2. rewrite O0, O3; simpl.
      rewrite app_nil_r.
      split; [rewrite <- app_assoc; reflexivity|].
      repeat split; auto; discriminate.
    + (* the loop went through *)
      destruct (Hok eq_refl) as (_ & _ & _ & C2 & _).
      specialize (Hf eq_refl).
      match goal with
      | |- context [runDeferred W ds ?hh] =>
          pose proof (runDeferred_calls W ds hh) as Hd;
          destruct (runDeferred W ds hh) as [u evsD]; simpl in *
      end.
      assert (KD : forallb isCleanup (calls evsD) = true)
        by (rewrite Hd; exact K1).
      destruct (cleanup_observed2 evsD KD) as (_ & _ & _ & _ & O3 & _).
      pose proof (cleanup_no_stream evsD KD) as S3.
      match goal with
      | |- context [mkEvent ?cc ?s ?ee :: evsD] =>
          exists (evs0 ++ evs1 ++ [mkEvent cc s ee]), evsD;
          change (evs0 ++ evs1 ++ mkEvent cc s ee :: evsD)
            with (evs0 ++ evs1 ++ [mkEvent cc s ee] ++ evsD)
      end.
      rewrite Hd.
      rewrite !calls_app, !closedOf_app, !fileOpsOf_app, !openedOf_app,
        !tarStreams_app.
      rewrite O0, O3, C0, C2, F0, S0, S3, Hf; simpl.
      rewrite !app_nil_r.
      split; [rewrite <- !app_assoc; reflexivity|].
      repeat split; auto.
Qed.

Lemma X8_BuildRelease_closes_archives_witness :
  (exists main after,
     snd (BuildRelease Example.lib Example2.copyFails Example.mars
            "/out" "foo" ["linux:amd64"; "darwin:arm64"] []) = main ++ after /\
     closedOf (calls after) = ["/out/foo_linux_amd64.tar.gz"]) /\
  (exists main after,
     snd (BuildRelease Example.lib (Example.good chainconf.empty) Example.mars
            "/out" "foo" ["linux:amd64"] []) = main ++ after /\
     fileOpsOf (calls main) =
       [os_Create "/out/foo_linux_amd64.tar.gz";
        io_Copy "/out/foo_linux_amd64.tar.gz" "tar:/tmp/biiiiiiiiiii";
        File_Close "/out/foo_linux_amd64.tar.gz"]).
Proof.
  split.
  - destruct (@X8_BuildRelease_closes_archives Example.lib Example2.copyFails
                Example.mars "/out" "foo" ["linux:amd64"; "darwin:arm64"] [])
      as (main & after & H1 & _ & H3 & _).
    exists main, after. split; [exact H1|]. rewrite H3. reflexivity.
  - destruct (@X8_BuildRelease_closes_archives Example.lib
                (Example.good chainconf.empty) Example.mars "/out" "foo"
                ["linux:amd64"] [])
      as (main & after & H1 & _ & _ & H4).
    exists main, after. split; [exact H1|].
    rewrite (proj2 (H4 eq_refl)). reflexivity.
Defined.
